(** * Grab / release interaction of the "Interaction and Physics" lecture scene

    A shallow embedding of [src/src/index.ts] (class [Game]): the scene-load
    callback that fills the registry of grabbable meshes, the polling of the
    squeeze buttons and the two squeeze handlers, followed by the properties
    of the grab controller.

    Scene nodes are JavaScript objects with identity; they are modelled as
    identifiers into a store ([scene]) that holds, for every node, the three
    fields the program reads or writes: its name, its parent and its physics
    impostor.  Geometry (poses, bounding volumes) belongs to the engine: the
    outcome of [intersectsMesh] is an input of each frame. *)

From stdpp Require Import base option functions list strings.

Open Scope string_scope.
Open Scope list_scope.

(** ** Data model *)

(** A reference to a scene node (an [AbstractMesh] or [TransformNode]). *)
Definition NodeId := nat.

(** [PhysicsImpostor]: the mass it was created with and whether its body is
    asleep (taken out of the simulation). *)
Record PhysicsImpostor := mkImpostor {
  mass : nat;
  sleeping : bool
}.

(** [impostor.sleep()] and [impostor.wakeUp()]. *)
Definition sleep (i : PhysicsImpostor) : PhysicsImpostor :=
  {| mass := mass i; sleeping := true |}.

Definition wakeUp (i : PhysicsImpostor) : PhysicsImpostor :=
  {| mass := mass i; sleeping := false |}.

(** The fields of a mesh used by the program. [parent = None] is the world
    root ([setParent(null)]). *)
Record AbstractMesh := mkMesh {
  name : string;
  parent : option NodeId;
  physicsImpostor : option PhysicsImpostor
}.

(** [component.changes]: the engine sets [changes.pressed] to an object in a
    frame where the button state changed and leaves it undefined otherwise;
    the handlers only test its truthiness. *)
Record ComponentChanges := mkChanges {
  changes_pressed : bool
}.

Record WebXRControllerComponent := mkComponent {
  changes : ComponentChanges;
  pressed : bool
}.

Record WebXRAbstractMotionController := mkMotionController {
  getComponent : string -> option WebXRControllerComponent
}.

(** [WebXRInputSource]: [grip] and [motionController] are optional members. *)
Record WebXRInputSource := mkInputSource {
  uniqueId : string;
  grip : option NodeId;
  motionController : option WebXRAbstractMotionController
}.

(** The members of [Game] that the interaction code uses, together with the
    node store of [this.scene]. *)
Record Game := mkGame {
  leftController : option WebXRInputSource;
  rightController : option WebXRInputSource;
  rightGrabbedObject : option NodeId;
  grabbableObjects : list NodeId;
  scene : NodeId -> AbstractMesh
}.

(** The state built by the constructor, over the nodes of a scene. *)
Definition newGame (sc : NodeId -> AbstractMesh) : Game :=
  {| leftController := None; rightController := None;
     rightGrabbedObject := None; grabbableObjects := [];
     scene := sc |}.

Definition set_rightGrabbedObject (o : option NodeId) (g : Game) : Game :=
  {| leftController := leftController g; rightController := rightController g;
     rightGrabbedObject := o; grabbableObjects := grabbableObjects g;
     scene := scene g |}.

Definition set_grabbableObjects (l : list NodeId) (g : Game) : Game :=
  {| leftController := leftController g; rightController := rightController g;
     rightGrabbedObject := rightGrabbedObject g; grabbableObjects := l;
     scene := scene g |}.

Definition set_scene (sc : NodeId -> AbstractMesh) (g : Game) : Game :=
  {| leftController := leftController g; rightController := rightController g;
     rightGrabbedObject := rightGrabbedObject g;
     grabbableObjects := grabbableObjects g; scene := sc |}.

Definition set_controllers (l r : option WebXRInputSource) (g : Game) : Game :=
  {| leftController := l; rightController := r;
     rightGrabbedObject := rightGrabbedObject g;
     grabbableObjects := grabbableObjects g; scene := scene g |}.

Definition mesh_set_parent (p : option NodeId) (m : AbstractMesh) : AbstractMesh :=
  {| name := name m; parent := p; physicsImpostor := physicsImpostor m |}.

Definition mesh_set_impostor (i : option PhysicsImpostor) (m : AbstractMesh)
  : AbstractMesh :=
  {| name := name m; parent := parent m; physicsImpostor := i |}.

(** ** Effects

    What a handler does to the outside: lines written through [Logger.Log] and
    the calls made on scene nodes, in program order. *)
Inductive Event :=
| ELog (msg : string)
| ESetParent (m : NodeId) (p : option NodeId)
| ENewImpostor (m : NodeId) (mass0 : nat)
| ESleep (m : NodeId)
| EWakeUp (m : NodeId).

Global Instance Event_eq_dec : EqDecision Event.
Proof. solve_decision. Defined.

(** A statement either completes or throws; the only exception the modelled
    code can raise is the [TypeError] of a property access on [null] or
    [undefined]. *)
Inductive Completion (A : Type) :=
| Normal (a : A)
| TypeError.
Arguments Normal {A} a.
Arguments TypeError {A}.

(** Computations over the game state that emit events and may throw. After a
    throw the state is the one reached at the throwing statement. *)
Definition M (A : Type) : Type := Game -> Completion A * Game * list Event.

Definition ret {A} (a : A) : M A := fun g => (Normal a, g, []).

Definition bind {A B} (m : M A) (k : A -> M B) : M B :=
  fun g =>
    match m g with
    | (Normal a, g1, e1) =>
        match k a g1 with
        | (c, g2, e2) => (c, g2, e1 ++ e2)
        end
    | (TypeError, g1, e1) => (TypeError, g1, e1)
    end.

Notation "'let*' x ':=' m 'in' k" := (bind m (fun x => k))
  (at level 10, x name, m at level 100, k at level 200).
Notation "m ;;; k" := (bind m (fun _ => k))
  (at level 100, k at level 200, right associativity).

Definition get : M Game := fun g => (Normal g, g, []).
Definition modify (f : Game -> Game) : M unit := fun g => (Normal tt, f g, []).
Definition emit (e : Event) : M unit := fun g => (Normal tt, g, [e]).
Definition throw {A} : M A := fun g => (TypeError, g, []).

(** [x!.member]: the non-null assertion is erased by the compiler, so the
    member access throws when [x] is [null] or [undefined]. *)
Definition deref {A} (x : option A) : M A :=
  match x with
  | Some a => ret a
  | None => throw
  end.

(** [Logger.Log(msg)] *)
Definition Logger_Log (msg : string) : M unit := emit (ELog msg).

(** [mesh.setParent(p)] *)
Definition setParent (m : NodeId) (p : option NodeId) : M unit :=
  modify (fun g => set_scene (alter (mesh_set_parent p) m (scene g)) g) ;;;
  emit (ESetParent m p).

(** [mesh.physicsImpostor = new PhysicsImpostor(mesh, BoxImpostor, {mass}, scene)] *)
Definition newPhysicsImpostor (m : NodeId) (mass0 : nat) : M unit :=
  modify (fun g =>
    set_scene (alter (mesh_set_impostor (Some (mkImpostor mass0 false))) m (scene g)) g) ;;;
  emit (ENewImpostor m mass0).

(** [mesh.physicsImpostor?.sleep()]: skipped when the mesh has no impostor. *)
Definition physicsImpostor_sleep (m : NodeId) : M unit :=
  let* g := get in
  match physicsImpostor (scene g m) with
  | Some i =>
      modify (fun g => set_scene (alter (mesh_set_impostor (Some (sleep i))) m (scene g)) g) ;;;
      emit (ESleep m)
  | None => ret tt
  end.

(** [mesh.physicsImpostor?.wakeUp()] *)
Definition physicsImpostor_wakeUp (m : NodeId) : M unit :=
  let* g := get in
  match physicsImpostor (scene g m) with
  | Some i =>
      modify (fun g => set_scene (alter (mesh_set_impostor (Some (wakeUp i))) m (scene g)) g) ;;;
      emit (EWakeUp m)
  | None => ret tt
  end.

(** ** Scene load: [assetsManager.onFinish] *)

(** [mesh.parent?.name == "Props"] *)
Definition parent_is_Props (g : Game) (mesh : NodeId) : bool :=
  match parent (scene g mesh) with
  | Some p => String.eqb (name (scene g p)) "Props"
  | None => false
  end.

(** The body of [worldTask.loadedMeshes.forEach]. The last call is
    [mesh.physicsImpostor.sleep()], without optional chaining. *)
Definition onFinish_mesh (mesh : NodeId) : M unit :=
  let* g := get in
  if String.eqb (name (scene g mesh)) "rpgpp_lt_table_01" then
    setParent mesh None ;;;
    newPhysicsImpostor mesh 0
  else if parent_is_Props g mesh then
    modify (fun g => set_grabbableObjects (grabbableObjects g ++ [mesh]) g) ;;;
    setParent mesh None ;;;
    newPhysicsImpostor mesh 1 ;;;
    let* g1 := get in
    let* i := deref (physicsImpostor (scene g1 mesh)) in
    modify (fun g => set_scene (alter (mesh_set_impostor (Some (sleep i))) mesh (scene g)) g) ;;;
    emit (ESleep mesh)
  else ret tt.

Fixpoint forEach {A} (f : A -> M unit) (l : list A) : M unit :=
  match l with
  | [] => ret tt
  | x :: rest => f x ;;; forEach f rest
  end.

(** [assetsManager.onFinish], given [worldTask.loadedMeshes]. (The debug
    layer shown at the end is not part of the model.) *)
Definition onFinish (loadedMeshes : list NodeId) : M unit :=
  forEach onFinish_mesh loadedMeshes.

(** ** Squeeze handlers *)

Definition onLeftSqueeze (component : option WebXRControllerComponent) : M unit :=
  match component with
  | Some c =>
      if changes_pressed (changes c) then
        if pressed c then Logger_Log "left squeeze pressed"
        else Logger_Log "left squeeze released"
      else ret tt
  | None => ret tt
  end.

Section Frame.

(** [a.intersectsMesh(b, true)] for the poses of the current frame. *)
Variable intersectsMesh : NodeId -> NodeId -> bool.

(** The [for] loop of the press branch, entered at index [i] with [objs]
    the registry entries from [i] on. The body never writes
    [grabbableObjects], so the entries visited are those of the list at
    loop entry; the loop condition is re-evaluated before each entry. *)
Fixpoint grabLoop (objs : list NodeId) : M unit :=
  match objs with
  | [] => ret tt
  | o :: rest =>
      let* g := get in
      match rightGrabbedObject g with
      | Some _ => ret tt
      | None =>
          let* rc := deref (rightController g) in
          let* gr := deref (grip rc) in
          (if intersectsMesh gr o then
             modify (set_rightGrabbedObject (Some o)) ;;;
             physicsImpostor_sleep o ;;;
             let* g1 := get in
             let* rc1 := deref (rightController g1) in
             let* gr1 := deref (grip rc1) in
             setParent o (Some gr1)
           else ret tt) ;;;
          grabLoop rest
      end
  end.

Definition onRightSqueeze (component : option WebXRControllerComponent) : M unit :=
  match component with
  | Some c =>
      if changes_pressed (changes c) then
        if pressed c then
          Logger_Log "right squeeze pressed" ;;;
          let* g := get in
          grabLoop (grabbableObjects g)
        else
          Logger_Log "right squeeze released" ;;;
          let* g := get in
          match rightGrabbedObject g with
          | Some o =>
              setParent o None ;;;
              physicsImpostor_wakeUp o ;;;
              modify (set_rightGrabbedObject None)
          | None => ret tt
          end
      else ret tt
  | None => ret tt
  end.

(** [controller?.motionController?.getComponent("xr-standard-squeeze")] *)
Definition squeezeComponent (controller : option WebXRInputSource)
  : option WebXRControllerComponent :=
  match controller with
  | Some c =>
      match motionController c with
      | Some mc => getComponent mc "xr-standard-squeeze"
      | None => None
      end
  | None => None
  end.

(** The two squeeze calls of [processControllerInput], in source order.
    The other eight handlers of that method only call [Logger.Log]; they
    neither read nor write the members modelled here. *)
Definition processSqueezeInput : M unit :=
  let* g := get in
  onLeftSqueeze (squeezeComponent (leftController g)) ;;;
  let* g1 := get in
  onRightSqueeze (squeezeComponent (rightController g1)).

End Frame.

(** ** Reading the result of a run *)

Definition completion {A} (r : Completion A * Game * list Event) : Completion A :=
  fst (fst r).
Definition final {A} (r : Completion A * Game * list Event) : Game :=
  snd (fst r).
Definition events {A} (r : Completion A * Game * list Event) : list Event :=
  snd r.

(** The calls made on scene nodes, without the log lines. *)
Definition is_log (e : Event) : bool :=
  match e with
  | ELog _ => true
  | _ => false
  end.

Definition scene_effects (evs : list Event) : list Event :=
  filter (fun e => is_log e = false) evs.

(** The state after the three statements of the grab branch, for the grabbed
    mesh [o] and the grip [gr], and the calls they make. *)
Definition put_to_sleep (o : NodeId) (g : Game) : Game :=
  match physicsImpostor (scene g o) with
  | Some i => set_scene (alter (mesh_set_impostor (Some (sleep i))) o (scene g)) g
  | None => g
  end.

Definition attached (gr o : NodeId) (g : Game) : Game :=
  let g1 := put_to_sleep o (set_rightGrabbedObject (Some o) g) in
  set_scene (alter (mesh_set_parent (Some gr)) o (scene g1)) g1.

Definition attach_events (g : Game) (gr o : NodeId) : list Event :=
  match physicsImpostor (scene g o) with
  | Some _ => [ESleep o]
  | None => []
  end ++ [ESetParent o (Some gr)].

(** The state after the three statements of the release branch. *)
Definition woken (o : NodeId) (g : Game) : Game :=
  match physicsImpostor (scene g o) with
  | Some i => set_scene (alter (mesh_set_impostor (Some (wakeUp i))) o (scene g)) g
  | None => g
  end.

Definition detached (o : NodeId) (g : Game) : Game :=
  set_rightGrabbedObject None
    (woken o (set_scene (alter (mesh_set_parent None) o (scene g)) g)).

Definition detach_events (g : Game) (o : NodeId) : list Event :=
  ESetParent o None ::
  match physicsImpostor (scene g o) with
  | Some _ => [EWakeUp o]
  | None => []
  end.

(** ** What the left handler logs *)

Definition left_squeeze_log (component : option WebXRControllerComponent)
  : list Event :=
  match component with
  | Some c =>
      if changes_pressed (changes c) then
        [ELog (if pressed c then "left squeeze pressed"
               else "left squeeze released")]
      else []
  | None => []
  end.

Definition only_logs (evs : list Event) : Prop :=
  forall e, In e evs -> is_log e = true.

(** ** One frame of squeeze polling *)

Section FrameOutcome.

Variable intersectsMesh : NodeId -> NodeId -> bool.

(** What a frame can do: nothing but logging (possibly ending in the
    [TypeError] of a missing grip), one grab, or one release. *)
Inductive frame_outcome (g : Game)
  : Completion unit -> Game -> list Event -> Prop :=
| frame_quiet c lg :
    only_logs lg ->
    frame_outcome g c g lg
| frame_grab rc gr o lg :
    rightGrabbedObject g = None ->
    rightController g = Some rc ->
    grip rc = Some gr ->
    find (intersectsMesh gr) (grabbableObjects g) = Some o ->
    only_logs lg ->
    frame_outcome g (Normal tt) (attached gr o g) (lg ++ attach_events g gr o)
| frame_release o lg :
    rightGrabbedObject g = Some o ->
    only_logs lg ->
    frame_outcome g (Normal tt) (detached o g) (lg ++ detach_events g o).

End FrameOutcome.

(** ** Scene load *)

(** A registry entry as [onFinish] leaves it: not the table, detached to the
    world root, with a sleeping impostor of mass 1. *)
Definition freshly_loaded (g : Game) (m : NodeId) : Prop :=
  String.eqb (name (scene g m)) "rpgpp_lt_table_01" = false /\
  parent (scene g m) = None /\
  physicsImpostor (scene g m) = Some (mkImpostor 1 true).

Definition registry_loaded (g : Game) : Prop :=
  forall m, In m (grabbableObjects g) -> freshly_loaded g m.

(** ** Reachable states *)

(** [controller?.grip] *)
Definition gripOf (controller : option WebXRInputSource) : option NodeId :=
  match controller with
  | Some c => grip c
  | None => None
  end.





(** Number of [wakeUp] calls made on [m] in a run. *)
Definition wakeUp_calls (m : NodeId) (evs : list Event) : nat :=
  length (filter (fun e => e = EWakeUp m) evs).

(** ** A concrete scene

    Two props (nodes 1 and 2) under the group "Props" (node 9), the table
    (node 3), and a right input source whose grip is node 100. *)
Module Demo.

Definition nodes : NodeId -> AbstractMesh :=
  fun n =>
    match n with
    | 1 => mkMesh "crate" (Some 9) None
    | 2 => mkMesh "barrel" (Some 9) None
    | 3 => mkMesh "rpgpp_lt_table_01" (Some 8) None
    | 9 => mkMesh "Props" (Some 0) None
    | _ => mkMesh "__root__" None None
    end.

Definition squeeze (changed down : bool) : WebXRAbstractMotionController :=
  mkMotionController (fun id =>
    if String.eqb id "xr-standard-squeeze"
    then Some (mkComponent (mkChanges changed) down)
    else None).

Definition pressEdge : WebXRControllerComponent := mkComponent (mkChanges true) true.
Definition releaseEdge : WebXRControllerComponent := mkComponent (mkChanges true) false.
Definition heldDown : WebXRControllerComponent := mkComponent (mkChanges false) true.

Definition hand (suffix : string) (g : option NodeId) (changed down : bool)
  : WebXRInputSource :=
  mkInputSource ("controller-0-tracked-pointer-" ++ suffix)%string g
    (Some (squeeze changed down)).

(** The grip touches the barrel only / both props / nothing. *)
Definition touchesBarrel (a b : NodeId) : bool := Nat.eqb b 2.
Definition touchesBoth (a b : NodeId) : bool := Nat.eqb b 1 || Nat.eqb b 2.
Definition touchesNothing (a b : NodeId) : bool := false.

Definition loadedMeshes : list NodeId := [0; 1; 2; 3; 9].

(** After the assets are loaded. *)
Definition loaded : Game := final (onFinish loadedMeshes (newGame nodes)).
Definition loadedTrace : list Event := [] ++ events (onFinish loadedMeshes (newGame nodes)).

(** The right controller reports a press edge. *)
Definition pressing : Game :=
  set_controllers None (Some (hand "right" (Some 100) true true)) loaded.

(** After the frame that grabs the barrel. *)
Definition holding : Game := final (processSqueezeInput touchesBarrel pressing).
Definition holdingTrace : list Event :=
  loadedTrace ++ events (processSqueezeInput touchesBarrel pressing).

(** The right controller reports the release edge, and the frame after it. *)
Definition releasing : Game :=
  set_controllers None (Some (hand "right" (Some 100) true false)) holding.

Definition released : Game := final (processSqueezeInput touchesBarrel releasing).
Definition releasedTrace : list Event :=
  holdingTrace ++ events (processSqueezeInput touchesBarrel releasing).

(** A right input source with a squeeze component but no grip. *)
Definition gripless : Game :=
  set_controllers None (Some (hand "none" None true true)) loaded.

(** Both slots hold the same kind of source, both report a press edge. *)
Definition bothPressing : Game :=
  set_controllers (Some (hand "left" (Some 100) true true))
    (Some (hand "right" (Some 100) true true)) loaded.

(** A registry whose meshes carry no impostor. *)
Definition bare : Game :=
  {| leftController := None;
     rightController := Some (hand "right" (Some 100) true true);
     rightGrabbedObject := None; grabbableObjects := [1; 2];
     scene := nodes |}.

Definition bareHolding : Game := set_rightGrabbedObject (Some 2) bare.

End Demo.

(** Symmetry of the two hands, in the words of the specification: on the
    same input and with the same grip on both hands, the left handler makes
    the calls on scene nodes that the right handler makes. *)
Definition left_squeeze_mirrors_right : Prop :=
  forall (intersectsMesh : NodeId -> NodeId -> bool) component g,
    gripOf (leftController g) = gripOf (rightController g) ->
    scene_effects (events (onLeftSqueeze component g)) =
    scene_effects (events (onRightSqueeze intersectsMesh component g)).

(** ** Controller registration: [onControllerAddedObservable] *)

(** [s.endsWith(suffix)]: [s] is at least as long as [suffix] and its last
    [suffix.length] characters are those of [suffix]. *)
Definition endsWith (s suffix : string) : bool :=
  let n := String.length s in
  let k := String.length suffix in
  Nat.leb k n && String.eqb (String.substring (n - k) k s) suffix.

(** The observer added to [xrHelper.input.onControllerAddedObservable]. *)
Definition onControllerAdded (inputSource : WebXRInputSource) : M unit :=
  if endsWith (uniqueId inputSource) "left" then
    modify (fun g => set_controllers (Some inputSource) (rightController g) g)
  else
    modify (fun g => set_controllers (leftController g) (Some inputSource) g).

(** ** The other button handlers *)

Definition onLeftTrigger (component : option WebXRControllerComponent) : M unit :=
  match component with
  | Some c =>
      if changes_pressed (changes c) then
        if pressed c then Logger_Log "left trigger pressed"
        else Logger_Log "left trigger released"
      else ret tt
  | None => ret tt
  end.

Definition onLeftX (component : option WebXRControllerComponent) : M unit :=
  match component with
  | Some c =>
      if changes_pressed (changes c) then
        if pressed c then Logger_Log "left X pressed"
        else Logger_Log "left X released"
      else ret tt
  | None => ret tt
  end.

Definition onLeftY (component : option WebXRControllerComponent) : M unit :=
  match component with
  | Some c =>
      if changes_pressed (changes c) then
        if pressed c then Logger_Log "left Y pressed"
        else Logger_Log "left Y released"
      else ret tt
  | None => ret tt
  end.

Definition onRightTrigger (component : option WebXRControllerComponent) : M unit :=
  match component with
  | Some c =>
      if changes_pressed (changes c) then
        if pressed c then Logger_Log "right trigger pressed"
        else Logger_Log "right trigger released"
      else ret tt
  | None => ret tt
  end.

Definition onRightA (component : option WebXRControllerComponent) : M unit :=
  match component with
  | Some c =>
      if changes_pressed (changes c) then
        if pressed c then Logger_Log "right A pressed"
        else Logger_Log "right A released"
      else ret tt
  | None => ret tt
  end.

Definition onRightB (component : option WebXRControllerComponent) : M unit :=
  match component with
  | Some c =>
      if changes_pressed (changes c) then
        if pressed c then Logger_Log "right B pressed"
        else Logger_Log "right B released"
      else ret tt
  | None => ret tt
  end.

(** The members of a thumbstick component that [WebXRControllerComponent]
    above does not carry: the truthiness of [changes.axes] and the two
    numbers of [axes]. They are only read when the component is defined. *)
Record ThumbstickAxes (number : Type) := mkAxes {
  changes_axes : bool;
  axes_x : number;
  axes_y : number
}.
Arguments mkAxes {number} _ _ _.
Arguments changes_axes {number} _.
Arguments axes_x {number} _.
Arguments axes_y {number} _.

(** [controller?.motionController?.getComponent(id)] *)
Definition componentOf (controller : option WebXRInputSource) (id : string)
  : option WebXRControllerComponent :=
  match controller with
  | Some c =>
      match motionController c with
      | Some mc => getComponent mc id
      | None => None
      end
  | None => None
  end.

Section Polling.

(** JavaScript numbers and the text that string concatenation gives them. *)
Context {number : Type}.
Variable Number_toString : number -> string.

Variable intersectsMesh : NodeId -> NodeId -> bool.

Definition onLeftThumbstick (component : option WebXRControllerComponent)
  (axes : ThumbstickAxes number) : M unit :=
  match component with
  | Some c =>
      (if changes_pressed (changes c) then
         if pressed c then Logger_Log "left thumbstick pressed"
         else Logger_Log "left thumbstick released"
       else ret tt) ;;;
      if changes_axes axes then
        Logger_Log ("left thumbstick axes: (" +:+ Number_toString (axes_x axes)
                    +:+ "," +:+ Number_toString (axes_y axes) +:+ ")")
      else ret tt
  | None => ret tt
  end.

Definition onRightThumbstick (component : option WebXRControllerComponent)
  (axes : ThumbstickAxes number) : M unit :=
  match component with
  | Some c =>
      (if changes_pressed (changes c) then
         if pressed c then Logger_Log "right thumbstick pressed"
         else Logger_Log "right thumbstick released"
       else ret tt) ;;;
      if changes_axes axes then
        Logger_Log ("right thumbstick axes: (" +:+ Number_toString (axes_x axes)
                    +:+ "," +:+ Number_toString (axes_y axes) +:+ ")")
      else ret tt
  | None => ret tt
  end.

(** [processControllerInput], with the axes members of the two thumbstick
    components of the frame. Each statement reads the controller member
    again. *)
Definition processControllerInput (leftAxes rightAxes : ThumbstickAxes number)
  : M unit :=
  (let* g := get in onLeftTrigger (componentOf (leftController g) "xr-standard-trigger")) ;;;
  (let* g := get in onLeftSqueeze (componentOf (leftController g) "xr-standard-squeeze")) ;;;
  (let* g := get in onLeftThumbstick (componentOf (leftController g) "xr-standard-thumbstick") leftAxes) ;;;
  (let* g := get in onLeftX (componentOf (leftController g) "x-button")) ;;;
  (let* g := get in onLeftY (componentOf (leftController g) "y-button")) ;;;
  (let* g := get in onRightTrigger (componentOf (rightController g) "xr-standard-trigger")) ;;;
  (let* g := get in onRightSqueeze intersectsMesh (componentOf (rightController g) "xr-standard-squeeze")) ;;;
  (let* g := get in onRightThumbstick (componentOf (rightController g) "xr-standard-thumbstick") rightAxes) ;;;
  (let* g := get in onRightA (componentOf (rightController g) "a-button")) ;;;
  (let* g := get in onRightB (componentOf (rightController g) "b-button")).

(** [update] *)
Definition update (leftAxes rightAxes : ThumbstickAxes number) : M unit :=
  processControllerInput leftAxes rightAxes.

(** The line a plain button handler writes, and those of a thumbstick. *)
Definition button_log (label : string) (component : option WebXRControllerComponent)
  : list Event :=
  match component with
  | Some c =>
      if changes_pressed (changes c) then
        [ELog (label +:+ (if pressed c then " pressed" else " released"))]
      else []
  | None => []
  end.

Definition thumbstick_log (label : string)
  (component : option WebXRControllerComponent) (axes : ThumbstickAxes number)
  : list Event :=
  match component with
  | Some c =>
      button_log label component ++
      (if changes_axes axes then
         [ELog (label +:+ " axes: (" +:+ Number_toString (axes_x axes)
                +:+ "," +:+ Number_toString (axes_y axes) +:+ ")")]
       else [])
  | None => []
  end.

(** What the handlers called before, and after, [onRightSqueeze] write. *)
Definition logs_before_right_squeeze (leftAxes : ThumbstickAxes number) (g : Game)
  : list Event :=
  button_log "left trigger" (componentOf (leftController g) "xr-standard-trigger") ++
  button_log "left squeeze" (componentOf (leftController g) "xr-standard-squeeze") ++
  thumbstick_log "left thumbstick"
    (componentOf (leftController g) "xr-standard-thumbstick") leftAxes ++
  button_log "left X" (componentOf (leftController g) "x-button") ++
  button_log "left Y" (componentOf (leftController g) "y-button") ++
  button_log "right trigger" (componentOf (rightController g) "xr-standard-trigger").

Definition logs_after_right_squeeze (rightAxes : ThumbstickAxes number) (g : Game)
  : list Event :=
  thumbstick_log "right thumbstick"
    (componentOf (rightController g) "xr-standard-thumbstick") rightAxes ++
  button_log "right A" (componentOf (rightController g) "a-button") ++
  button_log "right B" (componentOf (rightController g) "b-button").

End Polling.

(** ** Quantities of the analysis *)

(** The condition under which the press branch dereferences a missing
    grip. *)
Definition press_edge (component : option WebXRControllerComponent) : bool :=
  match component with
  | Some c => changes_pressed (changes c) && pressed c
  | None => false
  end.

(** How [onFinish] leaves a mesh it visits, in terms of the state before the
    load. *)
Definition to_register (g : Game) (m : NodeId) : bool :=
  negb (String.eqb (name (scene g m)) "rpgpp_lt_table_01") && parent_is_Props g m.

Definition loaded_mesh (g : Game) (m : NodeId) : AbstractMesh :=
  if String.eqb (name (scene g m)) "rpgpp_lt_table_01" then
    mkMesh (name (scene g m)) None (Some (mkImpostor 0 false))
  else if parent_is_Props g m then
    mkMesh (name (scene g m)) None (Some (mkImpostor 1 true))
  else scene g m.

(** Events that the load emits. *)
Definition is_load_event (e : Event) : bool :=
  match e with
  | ESetParent _ None | ENewImpostor _ _ | ESleep _ => true
  | _ => false
  end.

(** Number of times [m] was parented to a grip in a run. *)
Definition is_attach (m : NodeId) (e : Event) : bool :=
  match e with
  | ESetParent m' (Some _) => Nat.eqb m m'
  | _ => false
  end.

Definition attach_calls (m : NodeId) (evs : list Event) : nat :=
  length (List.filter (is_attach m) evs).

(** ** Runs of the whole program *)

(** What the engine does to a stored input source between frames: it loads
    its motion controller and refreshes the components; the source keeps its
    id and its grip. *)
Definition refreshed (c c' : option WebXRInputSource) : Prop :=
  match c, c' with
  | Some a, Some a' => uniqueId a' = uniqueId a /\ grip a' = grip a
  | None, None => True
  | _, _ => False
  end.

Section Program.

Context {number : Type}.
Variable Number_toString : number -> string.

(** The states the program can be in, with the events emitted so far and a
    flag telling whether [onFinish] has run: the constructor, the scene being
    filled while assets load, input sources added at any time, input sources
    refreshed by the engine, [onFinish] once, and any number of [update]
    calls, whether they complete or throw. *)
Inductive program_reachable : bool -> Game -> list Event -> Prop :=
| prog_new sc :
    program_reachable false (newGame sc) []
| prog_assets g tr sc :
    program_reachable false g tr ->
    program_reachable false (set_scene sc g) tr
| prog_added b g tr inputSource :
    program_reachable b g tr ->
    program_reachable b (final (onControllerAdded inputSource g))
      (tr ++ events (onControllerAdded inputSource g))
| prog_refreshed b g tr l r :
    program_reachable b g tr ->
    refreshed (leftController g) l -> refreshed (rightController g) r ->
    program_reachable b (set_controllers l r g) tr
| prog_finish g tr loadedMeshes :
    program_reachable false g tr ->
    program_reachable true (final (onFinish loadedMeshes g))
      (tr ++ events (onFinish loadedMeshes g))
| prog_update b g tr intersectsMesh leftAxes rightAxes :
    program_reachable b g tr ->
    program_reachable b
      (final (update Number_toString intersectsMesh leftAxes rightAxes g))
      (tr ++ events (update Number_toString intersectsMesh leftAxes rightAxes g)).

End Program.

(** The shape of the registry and of the grab binding in a run. *)
Record Sound (b : bool) (g : Game) : Prop := mkSound {
  sound_unloaded :
    b = false -> grabbableObjects g = [] /\ rightGrabbedObject g = None;
  sound_registry :
    forall m, In m (grabbableObjects g) ->
      String.eqb (name (scene g m)) "rpgpp_lt_table_01" = false /\
      (exists i, physicsImpostor (scene g m) = Some i /\ mass i = 1) /\
      (rightGrabbedObject g <> Some m -> parent (scene g m) = None);
  sound_held :
    forall o, rightGrabbedObject g = Some o ->
      In o (grabbableObjects g) /\
      (exists gr, parent (scene g o) = Some gr) /\
      (exists i, physicsImpostor (scene g o) = Some i /\ sleeping i = true)
}.

(** Grabs and releases of [m] balance, up to the grab in progress. *)
Definition balanced (g : Game) (tr : list Event) : Prop :=
  forall m,
    attach_calls m tr =
    wakeUp_calls m tr + (if decide (rightGrabbedObject g = Some m) then 1 else 0).

(** Events that only the load emits. *)
Definition load_events_only (evs : list Event) : Prop :=
  forall e, In e evs -> is_load_event e = true.

(** ** A concrete run of the whole program

    The scene of [Demo] is loaded, a right input source is added, a frame
    grabs the barrel, the engine reports the release edge and a second frame
    releases it. Numbers are rendered by a fixed text. *)
Module DemoRun.

Definition render (n : nat) : string := "0".
Definition still : ThumbstickAxes nat := mkAxes false 0 0.

Definition added : Game :=
  final (onControllerAdded (Demo.hand "right" (Some 100) true true) Demo.loaded).
Definition addedTrace : list Event :=
  Demo.loadedTrace ++
  events (onControllerAdded (Demo.hand "right" (Some 100) true true) Demo.loaded).

Definition grabbed : Game := final (update render Demo.touchesBarrel still still added).
Definition grabbedTrace : list Event :=
  addedTrace ++ events (update render Demo.touchesBarrel still still added).

Definition releasing : Game :=
  set_controllers None (Some (Demo.hand "right" (Some 100) true false)) grabbed.

Definition released : Game :=
  final (update render Demo.touchesNothing still still releasing).
Definition releasedTrace : list Event :=
  grabbedTrace ++ events (update render Demo.touchesNothing still still releasing).

(** Before the load: a right input source without a grip reports a press. *)
Definition early : Game :=
  final (onControllerAdded (Demo.hand "none" None true true) (newGame Demo.nodes)).
Definition earlyTrace : list Event :=
  [] ++ events (onControllerAdded (Demo.hand "none" None true true) (newGame Demo.nodes)).

(** While the barrel is held, a second right input source arrives, with
    another grip node. *)
Definition replaced : Game :=
  final (onControllerAdded (Demo.hand "right" (Some 200) false false) grabbed).
Definition replacedTrace : list Event :=
  grabbedTrace ++
  events (onControllerAdded (Demo.hand "right" (Some 200) false false) grabbed).

End DemoRun.

(** ** Runs that keep the grip of the holding hand *)

Section SteadyProgram.

Context {number : Type}.
Variable Number_toString : number -> string.

(** The runs of [program_reachable] in which, for as long as an object is
    held, no input source with another grip takes the right slot. *)
Inductive program_reachable_steady : bool -> Game -> list Event -> Prop :=
| steady_new sc :
    program_reachable_steady false (newGame sc) []
| steady_assets g tr sc :
    program_reachable_steady false g tr ->
    program_reachable_steady false (set_scene sc g) tr
| steady_added b g tr inputSource :
    program_reachable_steady b g tr ->
    (is_Some (rightGrabbedObject g) ->
     endsWith (uniqueId inputSource) "left" = true \/
     grip inputSource = gripOf (rightController g)) ->
    program_reachable_steady b (final (onControllerAdded inputSource g))
      (tr ++ events (onControllerAdded inputSource g))
| steady_refreshed b g tr l r :
    program_reachable_steady b g tr ->
    refreshed (leftController g) l -> refreshed (rightController g) r ->
    program_reachable_steady b (set_controllers l r g) tr
| steady_finish g tr loadedMeshes :
    program_reachable_steady false g tr ->
    program_reachable_steady true (final (onFinish loadedMeshes g))
      (tr ++ events (onFinish loadedMeshes g))
| steady_update b g tr intersectsMesh leftAxes rightAxes :
    program_reachable_steady b g tr ->
    program_reachable_steady b
      (final (update Number_toString intersectsMesh leftAxes rightAxes g))
      (tr ++ events (update Number_toString intersectsMesh leftAxes rightAxes g)).

End SteadyProgram.

(** The invariant of the holding hand, in the words of the specification:
    in every state of every run, a held object has its physics suspended and
    is parented to the grip of the holding hand. *)
Definition held_object_follows_the_hand : Prop :=
  forall (number : Type) (Number_toString : number -> string) b g tr O,
    program_reachable Number_toString b g tr ->
    rightGrabbedObject g = Some O ->
    (exists i, physicsImpostor (scene g O) = Some i /\ sleeping i = true) /\
    (exists gr, gripOf (rightController g) = Some gr /\
                parent (scene g O) = Some gr).

(** The last call on scene nodes in [tr] attached [O] to [gr]: only log
    lines were written since. *)
Definition attached_since (O gr : NodeId) (tr : list Event) : Prop :=
  exists before logs,
    tr = before ++ ESetParent O (Some gr) :: logs /\ only_logs logs.

(** ** Store lemmas *)

Lemma alter_same (f : AbstractMesh -> AbstractMesh) (sc : NodeId -> AbstractMesh) o :
  alter f o sc o = f (sc o).
Proof. apply fn_lookup_alter. Qed.

Lemma alter_other (f : AbstractMesh -> AbstractMesh) (sc : NodeId -> AbstractMesh) o m :
  m <> o -> alter f o sc m = sc m.
Proof. intros Hne. apply fn_lookup_alter_ne. congruence. Qed.

Lemma attached_fields gr o g :
  leftController (attached gr o g) = leftController g /\
  rightController (attached gr o g) = rightController g /\
  grabbableObjects (attached gr o g) = grabbableObjects g /\
  rightGrabbedObject (attached gr o g) = Some o.
Proof.
  unfold attached, put_to_sleep; cbn.
  destruct (physicsImpostor (scene g o)); cbn; auto.
Qed.

Lemma attached_mesh gr o g :
  scene (attached gr o g) o =
    {| name := name (scene g o); parent := Some gr;
       physicsImpostor := sleep <$> physicsImpostor (scene g o) |}.
Proof.
  unfold attached, put_to_sleep; cbn.
  destruct (physicsImpostor (scene g o)) eqn:Hi; cbn;
    rewrite !alter_same; unfold mesh_set_parent, mesh_set_impostor; cbn;
    rewrite ?Hi; reflexivity.
Qed.

Lemma attached_other gr o g m :
  m <> o -> scene (attached gr o g) m = scene g m.
Proof.
  intros Hne. unfold attached, put_to_sleep; cbn.
  destruct (physicsImpostor (scene g o)); cbn;
    rewrite !alter_other by assumption; reflexivity.
Qed.

Lemma detached_fields o g :
  leftController (detached o g) = leftController g /\
  rightController (detached o g) = rightController g /\
  grabbableObjects (detached o g) = grabbableObjects g /\
  rightGrabbedObject (detached o g) = None.
Proof.
  unfold detached, woken; cbn.
  destruct (physicsImpostor _); cbn; auto.
Qed.

Lemma detached_mesh o g :
  scene (detached o g) o =
    {| name := name (scene g o); parent := None;
       physicsImpostor := wakeUp <$> physicsImpostor (scene g o) |}.
Proof.
  unfold detached, woken; cbn. rewrite alter_same.
  unfold mesh_set_parent at 1; cbn.
  destruct (physicsImpostor (scene g o)) eqn:Hi; cbn;
    rewrite ?alter_same; unfold mesh_set_parent, mesh_set_impostor; cbn;
    rewrite ?Hi; reflexivity.
Qed.

Lemma detached_other o g m :
  m <> o -> scene (detached o g) m = scene g m.
Proof.
  intros Hne. unfold detached, woken; cbn.
  destruct (physicsImpostor _); cbn;
    rewrite !alter_other by assumption; reflexivity.
Qed.

(** ** The scan of the registry *)

Section Scan.

Variable intersectsMesh : NodeId -> NodeId -> bool.

(** With an object already held the loop condition fails at once. *)
Lemma grabLoop_holding objs g o :
  rightGrabbedObject g = Some o ->
  grabLoop intersectsMesh objs g = (Normal tt, g, []).
Proof.
  intros Hheld. destruct objs as [|x rest]; [reflexivity|].
  cbn. unfold bind, get. rewrite Hheld. reflexivity.
Qed.

(** Idle hand with a grip: the first intersecting entry is attached. *)
Lemma grabLoop_scan objs g rc gr :
  rightGrabbedObject g = None ->
  rightController g = Some rc ->
  grip rc = Some gr ->
  grabLoop intersectsMesh objs g =
    match find (intersectsMesh gr) objs with
    | Some o => (Normal tt, attached gr o g, attach_events g gr o)
    | None => (Normal tt, g, [])
    end.
Proof.
  intros Hidle Hrc Hgr. induction objs as [|x rest IH]; [reflexivity|].
  cbn [grabLoop find]. unfold bind at 1. unfold get at 1.
  rewrite Hidle. unfold bind at 1. rewrite Hrc. cbn [deref ret].
  unfold bind at 1. rewrite Hgr. cbn [deref ret].
  destruct (intersectsMesh gr x) eqn:Hx.
  - unfold attached, attach_events, put_to_sleep, physicsImpostor_sleep,
      setParent, modify, emit, get, bind; cbn.
    destruct (physicsImpostor (scene g x)) eqn:Hi; cbn;
      rewrite Hrc; cbn; rewrite Hgr; cbn;
      (destruct rest; [reflexivity|cbn; reflexivity]).
  - unfold bind at 1. cbn [ret]. rewrite IH.
    destruct (find (intersectsMesh gr) rest); reflexivity.
Qed.

(** Idle hand without a grip: the first evaluation of
    [this.rightController!.grip!.intersectsMesh] throws. *)
Lemma grabLoop_no_grip x rest g :
  rightGrabbedObject g = None ->
  match rightController g with
  | Some rc => grip rc = None
  | None => True
  end ->
  grabLoop intersectsMesh (x :: rest) g = (TypeError, g, []).
Proof.
  intros Hidle Hno. cbn [grabLoop]. unfold bind at 1. unfold get at 1.
  rewrite Hidle. unfold bind at 1.
  destruct (rightController g) as [rc|]; [|reflexivity].
  cbn [deref ret]. unfold bind at 1. rewrite Hno. reflexivity.
Qed.

Lemma find_first (f : NodeId -> bool) l o :
  find f l = Some o ->
  exists pre post, l = pre ++ o :: post /\ f o = true /\
                   forall m, In m pre -> f m = false.
Proof.
  induction l as [|x l IH]; cbn; [discriminate|].
  destruct (f x) eqn:Hx.
  - intros [= <-]. exists [], l. repeat split; auto. intros m [].
  - intros Hf. destruct (IH Hf) as (pre & post & -> & Ho & Hpre).
    exists (x :: pre), post. repeat split; auto.
    intros m [<-|Hin]; auto.
Qed.

Lemma find_none_iff (f : NodeId -> bool) l :
  find f l = None <-> forall m, In m l -> f m = false.
Proof.
  induction l as [|x l IH]; cbn.
  - split; [intros _ m []|reflexivity].
  - destruct (f x) eqn:Hx.
    + split; [discriminate|]. intros H. specialize (H x (or_introl eq_refl)).
      congruence.
    + rewrite IH. split.
      * intros H m [<-|Hin]; auto.
      * intros H m Hin. apply H. now right.
Qed.

Lemma find_is_Some (f : NodeId -> bool) l o :
  In o l -> f o = true -> exists o', find f l = Some o'.
Proof.
  intros Hin Ho. destruct (find f l) as [o'|] eqn:Hf; [eauto|].
  rewrite find_none_iff in Hf. rewrite (Hf o Hin) in Ho. discriminate.
Qed.

(** *** The two branches of [onRightSqueeze] *)

Lemma onRightSqueeze_press c g :
  changes_pressed (changes c) = true -> pressed c = true ->
  onRightSqueeze intersectsMesh (Some c) g =
    match grabLoop intersectsMesh (grabbableObjects g) g with
    | (r, g', evs) => (r, g', ELog "right squeeze pressed" :: evs)
    end.
Proof.
  intros Hch Hpr. unfold onRightSqueeze. rewrite Hch, Hpr.
  unfold bind, Logger_Log, emit, get; cbn.
  destruct (grabLoop _ _ g) as [[[[]|] g'] evs]; reflexivity.
Qed.

Lemma onRightSqueeze_release_holding c g o :
  changes_pressed (changes c) = true -> pressed c = false ->
  rightGrabbedObject g = Some o ->
  onRightSqueeze intersectsMesh (Some c) g =
    (Normal tt, detached o g,
     ELog "right squeeze released" :: detach_events g o).
Proof.
  intros Hch Hpr Hheld. unfold onRightSqueeze. rewrite Hch, Hpr.
  unfold bind, Logger_Log, emit, get; cbn. rewrite Hheld.
  unfold detached, detach_events, woken, setParent, physicsImpostor_wakeUp,
    modify, emit, get, bind; cbn.
  rewrite alter_same; cbn.
  destruct (physicsImpostor (scene g o)); reflexivity.
Qed.

Lemma onRightSqueeze_release_idle c g :
  changes_pressed (changes c) = true -> pressed c = false ->
  rightGrabbedObject g = None ->
  onRightSqueeze intersectsMesh (Some c) g =
    (Normal tt, g, [ELog "right squeeze released"]).
Proof.
  intros Hch Hpr Hidle. unfold onRightSqueeze. rewrite Hch, Hpr.
  unfold bind, Logger_Log, emit, get; cbn. rewrite Hidle. reflexivity.
Qed.

Lemma onRightSqueeze_no_edge component g :
  match component with
  | Some c => changes_pressed (changes c) = false
  | None => True
  end ->
  onRightSqueeze intersectsMesh component g = (Normal tt, g, []).
Proof.
  intros H. destruct component as [c|]; [|reflexivity].
  unfold onRightSqueeze. rewrite H. reflexivity.
Qed.

End Scan.

(** ** The left handler *)

Lemma onLeftSqueeze_run component g :
  onLeftSqueeze component g = (Normal tt, g, left_squeeze_log component).
Proof.
  destruct component as [c|]; [|reflexivity].
  unfold onLeftSqueeze, left_squeeze_log.
  destruct (changes_pressed (changes c)); [|reflexivity].
  destruct (pressed c); reflexivity.
Qed.


(** ** One frame of squeeze polling: what it can do *)

Section FrameOutcomeFacts.

Variable intersectsMesh : NodeId -> NodeId -> bool.

Lemma only_logs_app l1 l2 : only_logs l1 -> only_logs l2 -> only_logs (l1 ++ l2).
Proof.
  intros H1 H2 e Hin. apply in_app_or in Hin as [Hin|Hin]; auto.
Qed.

Lemma only_logs_one msg : only_logs [ELog msg].
Proof. intros e [<-|[]]. reflexivity. Qed.

Lemma only_logs_nil : only_logs [].
Proof. intros e []. Qed.

Lemma squeezeComponent_Some controller c :
  squeezeComponent controller = Some c ->
  exists rc, controller = Some rc.
Proof. destruct controller as [rc|]; [eauto|discriminate]. Qed.

Lemma onRightSqueeze_outcome g :
  let r := onRightSqueeze intersectsMesh (squeezeComponent (rightController g)) g in
  frame_outcome intersectsMesh g (completion r) (final r) (events r).
Proof.
  cbn zeta.
  destruct (squeezeComponent (rightController g)) as [c|] eqn:Hc;
    [|apply frame_quiet, only_logs_nil].
  destruct (changes_pressed (changes c)) eqn:Hch.
  2:{ rewrite onRightSqueeze_no_edge by exact Hch.
      apply frame_quiet, only_logs_nil. }
  destruct (pressed c) eqn:Hpr.
  - rewrite onRightSqueeze_press by assumption.
    destruct (rightGrabbedObject g) as [o|] eqn:Hheld.
    { rewrite (grabLoop_holding _ _ _ o) by assumption.
      apply frame_quiet, only_logs_one. }
    destruct (grabbableObjects g) as [|x rest] eqn:Hreg.
    { cbn. apply frame_quiet, only_logs_one. }
    destruct (squeezeComponent_Some _ _ Hc) as [rc Hrc].
    destruct (grip rc) as [gr|] eqn:Hgr.
    + rewrite (grabLoop_scan _ _ _ rc gr) by assumption.
      destruct (find (intersectsMesh gr) (x :: rest)) as [o|] eqn:Hf.
      * unfold completion, final, events; cbn [fst snd].
        change (ELog "right squeeze pressed" :: attach_events g gr o)
          with ([ELog "right squeeze pressed"] ++ attach_events g gr o).
        apply (frame_grab intersectsMesh g rc gr o); auto using only_logs_one.
        rewrite Hreg. exact Hf.
      * apply frame_quiet, only_logs_one.
    + rewrite grabLoop_no_grip; [|assumption|rewrite Hrc; assumption].
      apply frame_quiet, only_logs_one.
  - destruct (rightGrabbedObject g) as [o|] eqn:Hheld.
    + rewrite (onRightSqueeze_release_holding _ _ _ o) by assumption.
      unfold completion, final, events; cbn [fst snd].
      change (ELog "right squeeze released" :: detach_events g o)
        with ([ELog "right squeeze released"] ++ detach_events g o).
      apply frame_release; auto using only_logs_one.
    + rewrite onRightSqueeze_release_idle by assumption.
      apply frame_quiet, only_logs_one.
Qed.



End FrameOutcomeFacts.

(** ** Scene load: the iterations of [onFinish] *)

(** The three outcomes of one iteration of the [forEach]. *)
Lemma onFinish_mesh_table x g :
  String.eqb (name (scene g x)) "rpgpp_lt_table_01" = true ->
  onFinish_mesh x g =
    (Normal tt,
     set_scene (alter (mesh_set_impostor (Some (mkImpostor 0 false))) x
                  (alter (mesh_set_parent None) x (scene g))) g,
     [ESetParent x None; ENewImpostor x 0]).
Proof.
  intros Hn. unfold onFinish_mesh, bind, get. rewrite Hn. reflexivity.
Qed.

Lemma onFinish_mesh_prop x g :
  String.eqb (name (scene g x)) "rpgpp_lt_table_01" = false ->
  parent_is_Props g x = true ->
  exists g',
    onFinish_mesh x g =
      (Normal tt, g', [ESetParent x None; ENewImpostor x 1; ESleep x]) /\
    leftController g' = leftController g /\
    rightController g' = rightController g /\
    rightGrabbedObject g' = rightGrabbedObject g /\
    grabbableObjects g' = grabbableObjects g ++ [x] /\
    scene g' x = mkMesh (name (scene g x)) None (Some (mkImpostor 1 true)) /\
    forall m, m <> x -> scene g' m = scene g m.
Proof.
  intros Hn Hp. unfold onFinish_mesh, bind at 1, get at 1. rewrite Hn, Hp.
  unfold setParent, newPhysicsImpostor, modify, emit, get, bind.
  cbn [scene set_scene set_grabbableObjects grabbableObjects].
  rewrite alter_same. cbn [mesh_set_impostor physicsImpostor deref ret].
  eexists. split; [reflexivity|]. cbn.
  repeat split; try reflexivity.
  - rewrite !alter_same. reflexivity.
  - intros m Hm. rewrite !alter_other by assumption. reflexivity.
Qed.

Lemma onFinish_mesh_skip x g :
  String.eqb (name (scene g x)) "rpgpp_lt_table_01" = false ->
  parent_is_Props g x = false ->
  onFinish_mesh x g = (Normal tt, g, []).
Proof.
  intros Hn Hp. unfold onFinish_mesh, bind, get. rewrite Hn, Hp. reflexivity.
Qed.

(** What an iteration keeps: the controllers, the grab binding and a loaded
    registry, which can only grow by the visited mesh. *)
Lemma onFinish_mesh_run x g :
  registry_loaded g ->
  exists g' evs,
    onFinish_mesh x g = (Normal tt, g', evs) /\
    registry_loaded g' /\
    leftController g' = leftController g /\
    rightController g' = rightController g /\
    rightGrabbedObject g' = rightGrabbedObject g /\
    (forall m, In m (grabbableObjects g') ->
               In m (grabbableObjects g) \/ (m = x /\ In (ESleep x) evs)).
Proof.
  intros Hld.
  destruct (String.eqb (name (scene g x)) "rpgpp_lt_table_01") eqn:Hn.
  - rewrite onFinish_mesh_table by assumption.
    do 2 eexists. split; [reflexivity|]. cbn.
    split; [|repeat split; auto].
    intros m Hin. destruct (Hld m Hin) as (Hm & Hpar & Himp).
    assert (m <> x) by (intros ->; congruence).
    unfold freshly_loaded; cbn. rewrite !alter_other by assumption. auto.
  - destruct (parent_is_Props g x) eqn:Hp.
    + destruct (onFinish_mesh_prop x g Hn Hp)
        as (g' & Hrun & Hl & Hr & Hh & Hreg & Hx & Hother).
      exists g', [ESetParent x None; ENewImpostor x 1; ESleep x].
      split; [assumption|]. split; [|repeat split; auto].
      * intros m Hin. rewrite Hreg in Hin.
        destruct (decide (m = x)) as [->|Hne].
        -- unfold freshly_loaded. rewrite Hx. cbn. auto.
        -- apply in_app_or in Hin as [Hin|[->|[]]]; [|congruence].
           unfold freshly_loaded. rewrite Hother by assumption.
           apply Hld, Hin.
      * intros m Hin. rewrite Hreg in Hin.
        apply in_app_or in Hin as [Hin|[<-|[]]]; [now left|right].
        split; [reflexivity|]. cbn. auto.
    + rewrite onFinish_mesh_skip by assumption.
      do 2 eexists. split; [reflexivity|]. split; [assumption|].
      repeat split; auto.
Qed.

Lemma onFinish_run loadedMeshes g :
  registry_loaded g ->
  exists g' evs,
    onFinish loadedMeshes g = (Normal tt, g', evs) /\
    registry_loaded g' /\
    leftController g' = leftController g /\
    rightController g' = rightController g /\
    rightGrabbedObject g' = rightGrabbedObject g /\
    (forall m, In m (grabbableObjects g') ->
               In m (grabbableObjects g) \/
               (In m loadedMeshes /\ In (ESleep m) evs)).
Proof.
  revert g. induction loadedMeshes as [|x rest IH]; intros g Hld.
  - exists g, []. split; [reflexivity|]. split; [assumption|].
    repeat split; auto.
  - destruct (onFinish_mesh_run x g Hld)
      as (g1 & e1 & Hrun1 & Hld1 & Hl1 & Hr1 & Hh1 & Hreg1).
    destruct (IH g1 Hld1) as (g2 & e2 & Hrun2 & Hld2 & Hl2 & Hr2 & Hh2 & Hreg2).
    exists g2, (e1 ++ e2). unfold onFinish in *. cbn [forEach].
    unfold bind. rewrite Hrun1, Hrun2.
    split; [reflexivity|]. split; [assumption|].
    repeat split; try congruence.
    intros m Hin. destruct (Hreg2 m Hin) as [Hin1|[Hin2 Hev]].
    + destruct (Hreg1 m Hin1) as [Hin0|[-> Hev]]; [now left|right].
      split; [now left|]. apply in_or_app. now left.
    + right. split; [now right|]. apply in_or_app. now right.
Qed.

(** ** Traces *)




Lemma find_In (f : NodeId -> bool) l o : find f l = Some o -> In o l /\ f o = true.
Proof. apply find_some. Qed.

(** ** The invariant of the grab controller *)







(** ** Press and release edges, as functions of the state *)

Section Edges.

Variable intersectsMesh : NodeId -> NodeId -> bool.

Lemma press_idle_run c g rc gr :
  changes_pressed (changes c) = true -> pressed c = true ->
  rightGrabbedObject g = None ->
  rightController g = Some rc -> grip rc = Some gr ->
  onRightSqueeze intersectsMesh (Some c) g =
    match find (intersectsMesh gr) (grabbableObjects g) with
    | Some o =>
        (Normal tt, attached gr o g,
         ELog "right squeeze pressed" :: attach_events g gr o)
    | None => (Normal tt, g, [ELog "right squeeze pressed"])
    end.
Proof.
  intros Hch Hpr Hidle Hrc Hgr.
  rewrite onRightSqueeze_press by assumption.
  rewrite (grabLoop_scan _ _ _ rc gr) by assumption.
  destruct (find _ _); reflexivity.
Qed.

Lemma press_holding_run c g o :
  changes_pressed (changes c) = true -> pressed c = true ->
  rightGrabbedObject g = Some o ->
  onRightSqueeze intersectsMesh (Some c) g =
    (Normal tt, g, [ELog "right squeeze pressed"]).
Proof.
  intros Hch Hpr Hheld.
  rewrite onRightSqueeze_press by assumption.
  rewrite (grabLoop_holding _ _ _ o) by assumption. reflexivity.
Qed.

(** A press edge on an idle hand whose input source has no grip throws as
    soon as the registry has an entry to test. *)
Lemma press_without_grip_run c g x rest :
  changes_pressed (changes c) = true -> pressed c = true ->
  rightGrabbedObject g = None ->
  gripOf (rightController g) = None ->
  grabbableObjects g = x :: rest ->
  onRightSqueeze intersectsMesh (Some c) g =
    (TypeError, g, [ELog "right squeeze pressed"]).
Proof.
  intros Hch Hpr Hidle Hgrip Hreg.
  rewrite onRightSqueeze_press by assumption.
  rewrite Hreg, grabLoop_no_grip; [reflexivity|assumption|].
  unfold gripOf in Hgrip. destruct (rightController g); auto.
Qed.

(** Without a right input source, or without its motion controller, the
    polled component is undefined and the frame does nothing on the right
    hand. *)
Lemma untracked_right_hand_run g :
  match rightController g with
  | Some rc => motionController rc = None
  | None => True
  end ->
  onRightSqueeze intersectsMesh (squeezeComponent (rightController g)) g =
    (Normal tt, g, []).
Proof.
  intros H. unfold squeezeComponent.
  destruct (rightController g) as [rc|]; [rewrite H|]; reflexivity.
Qed.

Lemma find_app_first (f : NodeId -> bool) pre o post :
  (forall m, In m pre -> f m = false) -> f o = true ->
  find f (pre ++ o :: post) = Some o.
Proof.
  intros Hpre Ho. induction pre as [|x pre IH]; cbn.
  - now rewrite Ho.
  - rewrite (Hpre x) by now left. apply IH. intros m Hm. apply Hpre. now right.
Qed.

End Edges.

(** ** The concrete scene is reachable *)





Example demo_released_barrel :
  rightGrabbedObject Demo.released = None /\
  scene Demo.released 2 = mkMesh "barrel" None (Some (mkImpostor 1 false)) /\
  scene Demo.released 1 = mkMesh "crate" None (Some (mkImpostor 1 true)).
Proof. repeat split; reflexivity. Qed.

Example demo_loaded_registry : grabbableObjects Demo.loaded = [1; 2].
Proof. reflexivity. Qed.

Example demo_holding_barrel :
  rightGrabbedObject Demo.holding = Some 2 /\
  scene Demo.holding 2 = mkMesh "barrel" (Some 100) (Some (mkImpostor 1 true)) /\
  Demo.holdingTrace =
    [ESetParent 1 None; ENewImpostor 1 1; ESleep 1;
     ESetParent 2 None; ENewImpostor 2 1; ESleep 2;
     ESetParent 3 None; ENewImpostor 3 0;
     ELog "right squeeze pressed"; ESleep 2; ESetParent 2 (Some 100)].
Proof. repeat split; reflexivity. Qed.

(** * Properties of the grab controller *)

(** C1: in a frame where the right squeeze has a rising edge (changed and
    pressed), the hand is idle and its grip intersects some registered
    object [O], the handler completes with the hand holding a registered
    object [O'] that the grip intersects (the first such entry of the
    registry, hence [O] itself when no earlier entry intersects): the
    impostor of [O'] has been put to sleep and [O'] is parented to the grip.
    Nothing else in the scene changes. Registry meshes carry an impostor, as
    [onFinish] leaves them. *)
Theorem C1_press_edge_enters_holding :
  forall (intersectsMesh : NodeId -> NodeId -> bool) c g rc gr O,
    changes_pressed (changes c) = true -> pressed c = true ->
    rightGrabbedObject g = None ->
    rightController g = Some rc -> grip rc = Some gr ->
    In O (grabbableObjects g) -> intersectsMesh gr O = true ->
    (forall m, In m (grabbableObjects g) -> is_Some (physicsImpostor (scene g m))) ->
    exists O' i,
      let r := onRightSqueeze intersectsMesh (Some c) g in
      In O' (grabbableObjects g) /\ intersectsMesh gr O' = true /\
      (forall pre post, grabbableObjects g = pre ++ O :: post ->
         (forall m, In m pre -> intersectsMesh gr m = false) -> O' = O) /\
      physicsImpostor (scene g O') = Some i /\
      completion r = Normal tt /\
      rightGrabbedObject (final r) = Some O' /\
      scene (final r) O' = mkMesh (name (scene g O')) (Some gr) (Some (sleep i)) /\
      sleeping (sleep i) = true /\
      (forall m, m <> O' -> scene (final r) m = scene g m) /\
      grabbableObjects (final r) = grabbableObjects g /\
      rightController (final r) = rightController g /\
      events r =
        [ELog "right squeeze pressed"; ESleep O'; ESetParent O' (Some gr)].
Proof.
  intros isect c g rc gr O Hch Hpr Hidle Hrc Hgr HinO HO Himp.
  destruct (find_is_Some (isect gr) _ O HinO HO) as [O' Hfind].
  destruct (find_In _ _ _ Hfind) as [HinO' HO'].
  destruct (Himp O' HinO') as [i Hi].
  exists O', i. cbn zeta.
  rewrite (press_idle_run isect c g rc gr) by assumption. rewrite Hfind.
  unfold completion, final, events; cbn [fst snd].
  destruct (attached_fields gr O' g) as (_ & Hr' & Hreg' & Hh').
  repeat split; auto.
  - intros pre post Hsplit Hpre.
    rewrite Hsplit, (find_app_first _ pre O post Hpre HO) in Hfind. congruence.
  - rewrite attached_mesh, Hi. reflexivity.
  - intros m Hm. now apply attached_other.
  - unfold attach_events. rewrite Hi. reflexivity.
Qed.

Lemma C1_witness :
  exists O' i,
    let r := onRightSqueeze Demo.touchesBoth (Some Demo.pressEdge) Demo.pressing in
    In O' (grabbableObjects Demo.pressing) /\ Demo.touchesBoth 100 O' = true /\
    (forall pre post, grabbableObjects Demo.pressing = pre ++ 2 :: post ->
       (forall m, In m pre -> Demo.touchesBoth 100 m = false) -> O' = 2) /\
    physicsImpostor (scene Demo.pressing O') = Some i /\
    completion r = Normal tt /\
    rightGrabbedObject (final r) = Some O' /\
    scene (final r) O' =
      mkMesh (name (scene Demo.pressing O')) (Some 100) (Some (sleep i)) /\
    sleeping (sleep i) = true /\
    (forall m, m <> O' -> scene (final r) m = scene Demo.pressing m) /\
    grabbableObjects (final r) = grabbableObjects Demo.pressing /\
    rightController (final r) = rightController Demo.pressing /\
    events r = [ELog "right squeeze pressed"; ESleep O'; ESetParent O' (Some 100)].
Proof.
  apply (C1_press_edge_enters_holding Demo.touchesBoth Demo.pressEdge
           Demo.pressing (Demo.hand "right" (Some 100) true true) 100 2);
    try reflexivity.
  - vm_compute. auto.
  - intros m Hin. vm_compute in Hin.
    destruct Hin as [<-|[<-|[]]]; vm_compute; eauto.
Defined.

(** C2: in a frame where the right squeeze has a falling edge while the hand
    holds [O], the handler completes with the hand idle: [O] is detached to
    the world root, its impostor is woken by exactly one [wakeUp] call, and
    the grabbed-object reference is cleared. *)
Theorem C2_release_edge_returns_to_idle :
  forall (intersectsMesh : NodeId -> NodeId -> bool) c g O i,
    changes_pressed (changes c) = true -> pressed c = false ->
    rightGrabbedObject g = Some O ->
    physicsImpostor (scene g O) = Some i ->
    let r := onRightSqueeze intersectsMesh (Some c) g in
    completion r = Normal tt /\
    rightGrabbedObject (final r) = None /\
    scene (final r) O = mkMesh (name (scene g O)) None (Some (wakeUp i)) /\
    sleeping (wakeUp i) = false /\
    (forall m, m <> O -> scene (final r) m = scene g m) /\
    grabbableObjects (final r) = grabbableObjects g /\
    events r = [ELog "right squeeze released"; ESetParent O None; EWakeUp O] /\
    wakeUp_calls O (events r) = 1.
Proof.
  intros isect c g O i Hch Hpr Hheld Hi. cbn zeta.
  rewrite (onRightSqueeze_release_holding isect c g O) by assumption.
  unfold completion, final, events; cbn [fst snd].
  destruct (detached_fields O g) as (_ & _ & Hreg' & Hh').
  assert (Hev : ELog "right squeeze released" :: detach_events g O =
                [ELog "right squeeze released"; ESetParent O None; EWakeUp O])
    by (unfold detach_events; rewrite Hi; reflexivity).
  repeat split; auto.
  - rewrite detached_mesh, Hi. reflexivity.
  - intros m Hm. now apply detached_other.
  - rewrite Hev. unfold wakeUp_calls.
    rewrite !filter_cons. repeat case_decide; try congruence. reflexivity.
Qed.

Lemma C2_witness :
  let r := onRightSqueeze Demo.touchesNothing (Some Demo.releaseEdge) Demo.holding in
  completion r = Normal tt /\
  rightGrabbedObject (final r) = None /\
  scene (final r) 2 =
    mkMesh (name (scene Demo.holding 2)) None (Some (wakeUp (mkImpostor 1 true))) /\
  sleeping (wakeUp (mkImpostor 1 true)) = false /\
  (forall m, m <> 2 -> scene (final r) m = scene Demo.holding m) /\
  grabbableObjects (final r) = grabbableObjects Demo.holding /\
  events r = [ELog "right squeeze released"; ESetParent 2 None; EWakeUp 2] /\
  wakeUp_calls 2 (events r) = 1.
Proof.
  apply (C2_release_edge_returns_to_idle Demo.touchesNothing Demo.releaseEdge
           Demo.holding 2 (mkImpostor 1 true)); reflexivity.
Defined.

(** C3: on a press edge of an idle hand, the registry is scanned in
    registration order and the first entry whose volume intersects the grip
    is attached, whatever follows it; with registry [A; B] and both
    intersecting, [A] is attached and [B] is left as it was; when no entry
    intersects, the hand stays idle and nothing happens besides the log
    line. *)
Theorem C3_first_match_wins :
  forall (intersectsMesh : NodeId -> NodeId -> bool) c g rc gr,
    changes_pressed (changes c) = true -> pressed c = true ->
    rightGrabbedObject g = None ->
    rightController g = Some rc -> grip rc = Some gr ->
    let r := onRightSqueeze intersectsMesh (Some c) g in
    (forall pre A post,
        grabbableObjects g = pre ++ A :: post ->
        (forall m, In m pre -> intersectsMesh gr m = false) ->
        intersectsMesh gr A = true ->
        completion r = Normal tt /\
        rightGrabbedObject (final r) = Some A /\
        parent (scene (final r) A) = Some gr /\
        physicsImpostor (scene (final r) A) = sleep <$> physicsImpostor (scene g A) /\
        (forall m, m <> A -> scene (final r) m = scene g m) /\
        scene_effects (events r) = attach_events g gr A) /\
    (forall A B,
        grabbableObjects g = [A; B] ->
        intersectsMesh gr A = true -> intersectsMesh gr B = true ->
        rightGrabbedObject (final r) = Some A /\
        (B <> A -> scene (final r) B = scene g B)) /\
    ((forall m, In m (grabbableObjects g) -> intersectsMesh gr m = false) ->
        r = (Normal tt, g, [ELog "right squeeze pressed"])).
Proof.
  intros isect c g rc gr Hch Hpr Hidle Hrc Hgr. cbn zeta.
  rewrite (press_idle_run isect c g rc gr) by assumption.
  assert (Hfirst : forall pre A post,
             grabbableObjects g = pre ++ A :: post ->
             (forall m, In m pre -> isect gr m = false) ->
             isect gr A = true ->
             find (isect gr) (grabbableObjects g) = Some A).
  { intros pre A post -> Hpre HA. now apply find_app_first. }
  split; [|split].
  - intros pre A post Hsplit Hpre HA.
    rewrite (Hfirst pre A post Hsplit Hpre HA).
    unfold completion, final, events; cbn [fst snd].
    destruct (attached_fields gr A g) as (_ & _ & _ & Hh').
    rewrite attached_mesh. cbn [parent physicsImpostor].
    repeat split; auto.
    + intros m Hm. now apply attached_other.
    + unfold attach_events, scene_effects.
      destruct (physicsImpostor (scene g A)); reflexivity.
  - intros A B Hreg HA HB.
    rewrite (Hfirst [] A [B] Hreg) by (auto; intros m []).
    unfold final; cbn [fst snd].
    destruct (attached_fields gr A g) as (_ & _ & _ & Hh').
    split; [assumption|]. intros Hne. now apply attached_other.
  - intros Hnone. apply find_none_iff in Hnone. now rewrite Hnone.
Qed.

Lemma C3_witness :
  let r := onRightSqueeze Demo.touchesBoth (Some Demo.pressEdge) Demo.pressing in
  (rightGrabbedObject (final r) = Some 1 /\
   (2 <> 1 -> scene (final r) 2 = scene Demo.pressing 2)) /\
  onRightSqueeze Demo.touchesNothing (Some Demo.pressEdge) Demo.pressing =
    (Normal tt, Demo.pressing, [ELog "right squeeze pressed"]).
Proof.
  split.
  - refine (proj1 (proj2 (C3_first_match_wins Demo.touchesBoth Demo.pressEdge
             Demo.pressing (Demo.hand "right" (Some 100) true true) 100
             eq_refl eq_refl eq_refl eq_refl eq_refl)) 1 2 eq_refl eq_refl eq_refl).
  - refine (proj2 (proj2 (C3_first_match_wins Demo.touchesNothing Demo.pressEdge
             Demo.pressing (Demo.hand "right" (Some 100) true true) 100
             eq_refl eq_refl eq_refl eq_refl eq_refl)) _).
    intros m _. reflexivity.
Defined.

(** C5: while the hand holds [O], a further press edge changes nothing (same
    held object, no sleep, no reparenting: only the log line), and a frame
    without an edge of the squeeze input (button held down, button left up,
    or no component at all) does nothing whatever the state. *)
Theorem C5_no_regrab_and_edges_only :
  forall (intersectsMesh : NodeId -> NodeId -> bool) g,
    (forall c O,
        rightGrabbedObject g = Some O ->
        changes_pressed (changes c) = true -> pressed c = true ->
        onRightSqueeze intersectsMesh (Some c) g =
          (Normal tt, g, [ELog "right squeeze pressed"])) /\
    (forall c,
        changes_pressed (changes c) = false ->
        onRightSqueeze intersectsMesh (Some c) g = (Normal tt, g, [])) /\
    onRightSqueeze intersectsMesh None g = (Normal tt, g, []).
Proof.
  intros isect g. split; [|split].
  - intros c O Hheld Hch Hpr. now apply (press_holding_run isect c g O).
  - intros c Hch. now apply (onRightSqueeze_no_edge isect (Some c)).
  - reflexivity.
Qed.

Lemma C5_witness :
  onRightSqueeze Demo.touchesBoth (Some Demo.pressEdge) Demo.holding =
    (Normal tt, Demo.holding, [ELog "right squeeze pressed"]) /\
  onRightSqueeze Demo.touchesBoth (Some Demo.heldDown) Demo.holding =
    (Normal tt, Demo.holding, []).
Proof.
  split.
  - exact (proj1 (C5_no_regrab_and_edges_only Demo.touchesBoth Demo.holding)
             Demo.pressEdge 2 eq_refl eq_refl eq_refl).
  - exact (proj1 (proj2 (C5_no_regrab_and_edges_only Demo.touchesBoth Demo.holding))
             Demo.heldDown eq_refl).
Defined.

(** C6: a release edge on an idle hand leaves the whole state unchanged and
    makes no call on any scene node (no detach, no wake-up); the handler
    only writes its log line. *)
Theorem C6_release_while_idle_is_noop :
  forall (intersectsMesh : NodeId -> NodeId -> bool) c g,
    changes_pressed (changes c) = true -> pressed c = false ->
    rightGrabbedObject g = None ->
    let r := onRightSqueeze intersectsMesh (Some c) g in
    r = (Normal tt, g, [ELog "right squeeze released"]) /\
    scene_effects (events r) = [] /\
    (forall m, wakeUp_calls m (events r) = 0).
Proof.
  intros isect c g Hch Hpr Hidle. cbn zeta.
  rewrite (onRightSqueeze_release_idle isect c g) by assumption.
  split; [reflexivity|]. split; [reflexivity|].
  intros m. unfold wakeUp_calls, events; cbn [snd].
  rewrite filter_cons. case_decide; [discriminate|reflexivity].
Qed.

Lemma C6_witness :
  let r := onRightSqueeze Demo.touchesBoth (Some Demo.releaseEdge) Demo.loaded in
  r = (Normal tt, Demo.loaded, [ELog "right squeeze released"]) /\
  scene_effects (events r) = [] /\
  (forall m, wakeUp_calls m (events r) = 0).
Proof.
  apply (C6_release_while_idle_is_noop Demo.touchesBoth Demo.releaseEdge
           Demo.loaded); reflexivity.
Defined.

(** C7: evaluation at an idle hand whose input source reports a squeeze
    press edge but has no grip, with a loaded registry: the hand stays idle
    and the state is untouched, but the frame ends in a [TypeError] thrown
    by [this.rightController!.grip!.intersectsMesh]. *)
Theorem C7_press_edge_without_grip_throws :
  squeezeComponent (rightController Demo.gripless) = Some Demo.pressEdge /\
  gripOf (rightController Demo.gripless) = None /\
  rightGrabbedObject Demo.gripless = None /\
  grabbableObjects Demo.gripless = [1; 2] /\
  processSqueezeInput Demo.touchesBoth Demo.gripless =
    (TypeError, Demo.gripless, [ELog "right squeeze pressed"]).
Proof. repeat split; reflexivity. Qed.

(** C8, as stated, fails: with both hands on the barrel and a press edge, the
    right handler puts the barrel to sleep and reparents it, the left handler
    calls nothing. *)
Lemma C8_left_squeeze_does_not_grab : ~ left_squeeze_mirrors_right.
Proof.
  intros H.
  specialize (H Demo.touchesBarrel (Some Demo.pressEdge) Demo.bothPressing eq_refl).
  vm_compute in H. discriminate.
Qed.

(** C8, amended: the grab and release transitions exist for the right hand
    only. The left squeeze handler completes normally, leaves the game state
    (grab binding, registry, every scene node) as it found it and emits
    nothing but the log line of a press or release edge. *)
Theorem C8_left_squeeze_only_logs :
  forall component g,
    onLeftSqueeze component g = (Normal tt, g, left_squeeze_log component) /\
    scene_effects (left_squeeze_log component) = [] /\
    (left_squeeze_log component = [] \/
     left_squeeze_log component = [ELog "left squeeze pressed"] \/
     left_squeeze_log component = [ELog "left squeeze released"]).
Proof.
  intros component g. split; [apply onLeftSqueeze_run|].
  destruct component as [c|]; cbn; auto.
  destruct (changes_pressed (changes c)); cbn; auto.
  destruct (pressed c); cbn; auto.
Qed.



(** C10: for a mesh without a physics impostor, the grab skips the [sleep]
    call and the release skips the [wakeUp] call; both still reparent the
    mesh and update the grabbed-object reference, and both complete
    normally. *)
Theorem C10_missing_impostor_is_skipped :
  forall (intersectsMesh : NodeId -> NodeId -> bool) c g O,
    changes_pressed (changes c) = true ->
    physicsImpostor (scene g O) = None ->
    let r := onRightSqueeze intersectsMesh (Some c) g in
    (pressed c = true ->
     rightGrabbedObject g = None ->
     forall rc gr,
       rightController g = Some rc -> grip rc = Some gr ->
       find (intersectsMesh gr) (grabbableObjects g) = Some O ->
       completion r = Normal tt /\
       rightGrabbedObject (final r) = Some O /\
       scene (final r) O = mkMesh (name (scene g O)) (Some gr) None /\
       events r = [ELog "right squeeze pressed"; ESetParent O (Some gr)]) /\
    (pressed c = false ->
     rightGrabbedObject g = Some O ->
     completion r = Normal tt /\
     rightGrabbedObject (final r) = None /\
     scene (final r) O = mkMesh (name (scene g O)) None None /\
     events r = [ELog "right squeeze released"; ESetParent O None]).
Proof.
  intros isect c g O Hch Hi. cbn zeta. split.
  - intros Hpr Hidle rc gr Hrc Hgr Hfind.
    rewrite (press_idle_run isect c g rc gr) by assumption. rewrite Hfind.
    unfold completion, final, events; cbn [fst snd].
    destruct (attached_fields gr O g) as (_ & _ & _ & Hh').
    rewrite attached_mesh. unfold attach_events. rewrite Hi. auto.
  - intros Hpr Hheld.
    rewrite (onRightSqueeze_release_holding isect c g O) by assumption.
    unfold completion, final, events; cbn [fst snd].
    destruct (detached_fields O g) as (_ & _ & _ & Hh').
    rewrite detached_mesh. unfold detach_events. rewrite Hi. auto.
Qed.

Lemma C10_witness :
  (let r := onRightSqueeze Demo.touchesBarrel (Some Demo.pressEdge) Demo.bare in
   completion r = Normal tt /\
   rightGrabbedObject (final r) = Some 2 /\
   scene (final r) 2 = mkMesh (name (scene Demo.bare 2)) (Some 100) None /\
   events r = [ELog "right squeeze pressed"; ESetParent 2 (Some 100)]) /\
  (let r := onRightSqueeze Demo.touchesBarrel (Some Demo.releaseEdge) Demo.bareHolding in
   completion r = Normal tt /\
   rightGrabbedObject (final r) = None /\
   scene (final r) 2 = mkMesh (name (scene Demo.bareHolding 2)) None None /\
   events r = [ELog "right squeeze released"; ESetParent 2 None]).
Proof.
  split.
  - exact (proj1 (C10_missing_impostor_is_skipped Demo.touchesBarrel Demo.pressEdge
             Demo.bare 2 eq_refl eq_refl) eq_refl eq_refl
             (Demo.hand "right" (Some 100) true true) 100 eq_refl eq_refl eq_refl).
  - exact (proj2 (C10_missing_impostor_is_skipped Demo.touchesBarrel Demo.releaseEdge
             Demo.bareHolding 2 eq_refl eq_refl) eq_refl eq_refl).
Defined.

(** * Further properties of the program *)

(** ** Controller registration *)

Lemma substring_whole (t : string) : String.substring 0 (String.length t) t = t.
Proof. induction t as [|c t IH]; cbn; [reflexivity|]. f_equal. exact IH. Qed.

Lemma append_cons (c : Ascii.ascii) (p t : string) :
  String c p +:+ t = String c (p +:+ t).
Proof. reflexivity. Qed.

Lemma substring_skip_prefix (p t : string) :
  String.substring (String.length p) (String.length t) (p +:+ t) = t.
Proof.
  induction p as [|c p IH]; [apply substring_whole|].
  rewrite append_cons. cbn. exact IH.
Qed.

Lemma length_app_string (p t : string) :
  String.length (p +:+ t) = String.length p + String.length t.
Proof.
  induction p as [|c p IH]; [reflexivity|].
  rewrite append_cons. cbn. f_equal. exact IH.
Qed.

Lemma substring_split (s : string) :
  forall m, m <= String.length s ->
    s = String.substring 0 m s +:+ String.substring m (String.length s - m) s.
Proof.
  induction s as [|c s IH]; intros m Hm.
  - destruct m; reflexivity.
  - destruct m as [|m]; cbn.
    + now rewrite substring_whole.
    + cbn in Hm. rewrite append_cons. f_equal. apply IH. lia.
Qed.

Lemma endsWith_iff (s suffix : string) :
  endsWith s suffix = true <-> exists p, s = p +:+ suffix.
Proof.
  unfold endsWith. rewrite andb_true_iff, Nat.leb_le, String.eqb_eq. split.
  - intros [Hle Hsub].
    exists (String.substring 0 (String.length s - String.length suffix) s).
    pose proof (substring_split s (String.length s - String.length suffix)) as H.
    replace (String.length s - (String.length s - String.length suffix))
      with (String.length suffix) in H by lia.
    rewrite Hsub in H. apply H. lia.
  - intros [p ->]. rewrite length_app_string. split; [lia|].
    replace (String.length p + String.length suffix - String.length suffix)
      with (String.length p) by lia.
    apply substring_skip_prefix.
Qed.

(** X1: a new input source becomes the left controller exactly when its
    unique id is some text followed by "left"; every other source, whatever
    its handedness, overwrites the right controller. The other slot, the grab
    binding, the registry and the scene are left alone, nothing is logged and
    nothing is thrown. *)
Theorem onControllerAdded_routing :
  forall inputSource g,
    let r := onControllerAdded inputSource g in
    completion r = Normal tt /\ events r = [] /\
    rightGrabbedObject (final r) = rightGrabbedObject g /\
    grabbableObjects (final r) = grabbableObjects g /\
    scene (final r) = scene g /\
    ((exists p, uniqueId inputSource = p +:+ "left") ->
       leftController (final r) = Some inputSource /\
       rightController (final r) = rightController g) /\
    (~ (exists p, uniqueId inputSource = p +:+ "left") ->
       rightController (final r) = Some inputSource /\
       leftController (final r) = leftController g).
Proof.
  intros src g. cbn zeta. unfold onControllerAdded.
  destruct (endsWith (uniqueId src) "left") eqn:He.
  - do 5 (split; [reflexivity|]). split; [intros _; split; reflexivity|].
    intros Hn. apply endsWith_iff in He. contradiction.
  - do 5 (split; [reflexivity|]). split; [|intros _; split; reflexivity].
    intros Hp. apply endsWith_iff in Hp. congruence.
Qed.

Lemma onControllerAdded_routing_witness :
  (leftController (final (onControllerAdded (Demo.hand "left" (Some 101) false false) Demo.loaded))
     = Some (Demo.hand "left" (Some 101) false false)) /\
  (rightController (final (onControllerAdded (Demo.hand "none" None false false) Demo.loaded))
     = Some (Demo.hand "none" None false false)).
Proof.
  split.
  - apply (onControllerAdded_routing (Demo.hand "left" (Some 101) false false) Demo.loaded).
    exists "controller-0-tracked-pointer-". reflexivity.
  - apply (onControllerAdded_routing (Demo.hand "none" None false false) Demo.loaded).
    intros Hp. apply endsWith_iff in Hp. vm_compute in Hp. discriminate.
Defined.

(** X2: only the last source added to a slot counts, and sources that go to
    different slots can be added in either order. *)
Theorem onControllerAdded_compose :
  forall s1 s2 g,
    let add := fun s g => final (onControllerAdded s g) in
    (endsWith (uniqueId s1) "left" = endsWith (uniqueId s2) "left" ->
       add s2 (add s1 g) = add s2 g) /\
    (endsWith (uniqueId s1) "left" <> endsWith (uniqueId s2) "left" ->
       add s2 (add s1 g) = add s1 (add s2 g)).
Proof.
  intros s1 s2 g. cbn zeta. unfold onControllerAdded.
  destruct (endsWith (uniqueId s1) "left"), (endsWith (uniqueId s2) "left");
    split; intros H; try discriminate; try congruence; reflexivity.
Qed.

Lemma onControllerAdded_compose_witness :
  let add := fun s g => final (onControllerAdded s g) in
  add (Demo.hand "right" (Some 200) false false)
      (add (Demo.hand "right" (Some 100) false false) Demo.loaded)
    = add (Demo.hand "right" (Some 200) false false) Demo.loaded /\
  add (Demo.hand "right" (Some 100) false false)
      (add (Demo.hand "left" (Some 101) false false) Demo.loaded)
    = add (Demo.hand "left" (Some 101) false false)
          (add (Demo.hand "right" (Some 100) false false) Demo.loaded).
Proof.
  split.
  - apply (onControllerAdded_compose (Demo.hand "right" (Some 100) false false)
             (Demo.hand "right" (Some 200) false false) Demo.loaded).
    reflexivity.
  - apply (onControllerAdded_compose (Demo.hand "left" (Some 101) false false)
             (Demo.hand "right" (Some 100) false false) Demo.loaded).
    vm_compute. discriminate.
Defined.

(** ** The right squeeze handler on any component and any state *)

Lemma onRightSqueeze_outcome_any intersectsMesh component g :
  let r := onRightSqueeze intersectsMesh component g in
  frame_outcome intersectsMesh g (completion r) (final r) (events r).
Proof.
  cbn zeta. destruct component as [c|]; [|apply frame_quiet, only_logs_nil].
  destruct (changes_pressed (changes c)) eqn:Hch.
  2:{ rewrite (onRightSqueeze_no_edge _ (Some c)) by exact Hch.
      apply frame_quiet, only_logs_nil. }
  destruct (pressed c) eqn:Hpr.
  - destruct (rightGrabbedObject g) as [o|] eqn:Hheld.
    { rewrite (press_holding_run _ c g o) by assumption.
      apply frame_quiet, only_logs_one. }
    destruct (grabbableObjects g) as [|x rest] eqn:Hreg.
    { rewrite onRightSqueeze_press by assumption. rewrite Hreg. cbn.
      apply frame_quiet, only_logs_one. }
    destruct (gripOf (rightController g)) as [gr|] eqn:Hgrip.
    + unfold gripOf in Hgrip.
      destruct (rightController g) as [rc|] eqn:Hrc; [|discriminate].
      rewrite (press_idle_run _ c g rc gr) by assumption.
      destruct (find (intersectsMesh gr) (grabbableObjects g)) as [o|] eqn:Hf.
      * unfold completion, final, events; cbn [fst snd].
        change (ELog "right squeeze pressed" :: attach_events g gr o)
          with ([ELog "right squeeze pressed"] ++ attach_events g gr o).
        apply (frame_grab intersectsMesh g rc gr o); auto using only_logs_one.
      * apply frame_quiet, only_logs_one.
    + rewrite (press_without_grip_run _ c g x rest) by assumption.
      apply frame_quiet, only_logs_one.
  - destruct (rightGrabbedObject g) as [o|] eqn:Hheld.
    + rewrite (onRightSqueeze_release_holding _ _ _ o) by assumption.
      unfold completion, final, events; cbn [fst snd].
      change (ELog "right squeeze released" :: detach_events g o)
        with ([ELog "right squeeze released"] ++ detach_events g o).
      apply frame_release; auto using only_logs_one.
    + rewrite onRightSqueeze_release_idle by assumption.
      apply frame_quiet, only_logs_one.
Qed.

Ltac quiet_case :=
  unfold completion, final, events; cbn [fst snd andb];
  split; [split|];
  [ discriminate
  | let H := fresh in intros H; decompose [and] H; congruence
  | discriminate ].

(** When the handler throws, and what it leaves behind. *)
Lemma onRightSqueeze_throw_cases :
  forall (intersectsMesh : NodeId -> NodeId -> bool) component g,
    let r := onRightSqueeze intersectsMesh component g in
    (completion r = TypeError <->
       press_edge component = true /\
       rightGrabbedObject g = None /\
       grabbableObjects g <> [] /\
       gripOf (rightController g) = None) /\
    (completion r = TypeError ->
       final r = g /\ events r = [ELog "right squeeze pressed"]).
Proof.
  intros isect component g. cbn zeta. unfold press_edge.
  destruct component as [c|]; [|quiet_case].
  destruct (changes_pressed (changes c)) eqn:Hch.
  2:{ rewrite (onRightSqueeze_no_edge _ (Some c)) by exact Hch. quiet_case. }
  destruct (pressed c) eqn:Hpr; cbn [andb].
  - destruct (rightGrabbedObject g) as [o|] eqn:Hheld.
    { rewrite (press_holding_run _ c g o) by assumption. quiet_case. }
    destruct (grabbableObjects g) as [|x rest] eqn:Hreg.
    { rewrite onRightSqueeze_press by assumption. rewrite Hreg.
      cbn [grabLoop ret]. quiet_case. }
    destruct (gripOf (rightController g)) as [gr|] eqn:Hgrip.
    + unfold gripOf in Hgrip.
      destruct (rightController g) as [rc|] eqn:Hrc; [|discriminate].
      rewrite (press_idle_run _ c g rc gr) by assumption.
      destruct (find (isect gr) (grabbableObjects g)); quiet_case.
    + rewrite (press_without_grip_run _ c g x rest) by assumption.
      unfold completion, final, events; cbn [fst snd].
      split; [split|]; auto.
  - destruct (rightGrabbedObject g) as [o|] eqn:Hheld.
    + rewrite (onRightSqueeze_release_holding _ _ _ o) by assumption. quiet_case.
    + rewrite onRightSqueeze_release_idle by assumption. quiet_case.
Qed.

(** X3: the right squeeze handler throws in exactly one situation: a press
    edge on an idle hand, with at least one registered mesh, and no grip on
    the right input source (or no right input source at all). In that case
    the state is the one it started from and the log line is all it wrote.
    In particular a release never throws, and neither does a press while the
    registry is still empty. *)
Theorem onRightSqueeze_throws_iff :
  forall (intersectsMesh : NodeId -> NodeId -> bool) component g,
    let r := onRightSqueeze intersectsMesh component g in
    (completion r = TypeError <->
       press_edge component = true /\
       rightGrabbedObject g = None /\
       grabbableObjects g <> [] /\
       gripOf (rightController g) = None) /\
    (completion r = TypeError ->
       final r = g /\ events r = [ELog "right squeeze pressed"]).
Proof. exact onRightSqueeze_throw_cases. Qed.

Lemma onRightSqueeze_throws_iff_witness :
  completion (onRightSqueeze Demo.touchesBoth (Some Demo.pressEdge) Demo.gripless)
    = TypeError /\
  final (onRightSqueeze Demo.touchesBoth (Some Demo.pressEdge) Demo.gripless)
    = Demo.gripless /\
  events (onRightSqueeze Demo.touchesBoth (Some Demo.pressEdge) Demo.gripless)
    = [ELog "right squeeze pressed"].
Proof.
  assert (H : completion (onRightSqueeze Demo.touchesBoth (Some Demo.pressEdge)
                            Demo.gripless) = TypeError).
  { apply (proj1 (onRightSqueeze_throws_iff Demo.touchesBoth (Some Demo.pressEdge)
                    Demo.gripless)).
    repeat split; try reflexivity. vm_compute. discriminate. }
  split; [exact H|].
  exact (proj2 (onRightSqueeze_throws_iff Demo.touchesBoth (Some Demo.pressEdge)
                  Demo.gripless) H).
Defined.

Lemma fmap_mass_sleep (x : option PhysicsImpostor) : mass <$> (sleep <$> x) = mass <$> x.
Proof. destruct x; reflexivity. Qed.

Lemma fmap_mass_wakeUp (x : option PhysicsImpostor) : mass <$> (wakeUp <$> x) = mass <$> x.
Proof. destruct x; reflexivity. Qed.

(** X4: whatever the component and the state, the right squeeze handler
    never touches the controllers or the registry, never renames a node and
    never creates, removes or re-weighs an impostor; the only node it can
    change is the one it grabs or the one it releases. *)
Theorem onRightSqueeze_conserves :
  forall (intersectsMesh : NodeId -> NodeId -> bool) component g,
    let r := onRightSqueeze intersectsMesh component g in
    leftController (final r) = leftController g /\
    rightController (final r) = rightController g /\
    grabbableObjects (final r) = grabbableObjects g /\
    (forall m,
        name (scene (final r) m) = name (scene g m) /\
        mass <$> physicsImpostor (scene (final r) m) =
          mass <$> physicsImpostor (scene g m)) /\
    (forall m,
        scene (final r) m <> scene g m ->
        (rightGrabbedObject g = None /\ rightGrabbedObject (final r) = Some m) \/
        (rightGrabbedObject g = Some m /\ rightGrabbedObject (final r) = None)).
Proof.
  intros isect component g. cbn zeta.
  pose proof (onRightSqueeze_outcome_any isect component g) as Hout.
  cbn zeta in Hout.
  destruct (onRightSqueeze isect component g) as [[c g'] evs].
  unfold completion, final, events in *; cbn [fst snd] in *.
  inversion Hout as [c0 lg Hlg | rc gr o lg Hidle Hrc Hgr Hfind Hlg
                    | o lg Hholding Hlg]; subst.
  - repeat split; auto. intros m Hne. congruence.
  - destruct (attached_fields gr o g) as (Hl & Hr & Hreg & Hh).
    do 3 (split; [assumption|]). split.
    + intros m. destruct (decide (m = o)) as [->|Hne].
      * rewrite attached_mesh. cbn. split; [reflexivity|apply fmap_mass_sleep].
      * rewrite attached_other by assumption. auto.
    + intros m Hne. left. destruct (decide (m = o)) as [->|Hmo]; [auto|].
      rewrite attached_other in Hne by assumption. congruence.
  - destruct (detached_fields o g) as (Hl & Hr & Hreg & Hh).
    do 3 (split; [assumption|]). split.
    + intros m. destruct (decide (m = o)) as [->|Hne].
      * rewrite detached_mesh. cbn. split; [reflexivity|apply fmap_mass_wakeUp].
      * rewrite detached_other by assumption. auto.
    + intros m Hne. right. destruct (decide (m = o)) as [->|Hmo]; [auto|].
      rewrite detached_other in Hne by assumption. congruence.
Qed.

Lemma onRightSqueeze_conserves_witness :
  (rightGrabbedObject Demo.pressing = None /\
   rightGrabbedObject
     (final (onRightSqueeze Demo.touchesBarrel (Some Demo.pressEdge) Demo.pressing))
     = Some 2) \/
  (rightGrabbedObject Demo.pressing = Some 2 /\
   rightGrabbedObject
     (final (onRightSqueeze Demo.touchesBarrel (Some Demo.pressEdge) Demo.pressing))
     = None).
Proof.
  apply (onRightSqueeze_conserves Demo.touchesBarrel (Some Demo.pressEdge)
           Demo.pressing).
  vm_compute. discriminate.
Defined.

Lemma fmap_wakeUp_sleep (x : option PhysicsImpostor) :
  wakeUp <$> (sleep <$> x) = wakeUp <$> x.
Proof. destruct x; reflexivity. Qed.

(** X5: a grab followed, in a later frame, by a release puts everything back
    except the grabbed mesh, which ends at the world root with its impostor
    awake; if that is how it started (at the root, and awake or without an
    impostor), the scene is exactly what it was. The release does not depend
    on the controllers reported at that time. *)
Theorem grab_then_release_round_trip :
  forall (isect1 isect2 : NodeId -> NodeId -> bool) c1 c2 g rc gr o l r,
    changes_pressed (changes c1) = true -> pressed c1 = true ->
    changes_pressed (changes c2) = true -> pressed c2 = false ->
    rightGrabbedObject g = None ->
    rightController g = Some rc -> grip rc = Some gr ->
    find (isect1 gr) (grabbableObjects g) = Some o ->
    let g1 := final (onRightSqueeze isect1 (Some c1) g) in
    let r2 := onRightSqueeze isect2 (Some c2) (set_controllers l r g1) in
    completion r2 = Normal tt /\
    rightGrabbedObject (final r2) = None /\
    grabbableObjects (final r2) = grabbableObjects g /\
    scene (final r2) o =
      mkMesh (name (scene g o)) None (wakeUp <$> physicsImpostor (scene g o)) /\
    (forall m, m <> o -> scene (final r2) m = scene g m) /\
    (parent (scene g o) = None ->
     (forall i, physicsImpostor (scene g o) = Some i -> sleeping i = false) ->
     forall m, scene (final r2) m = scene g m).
Proof.
  intros isect1 isect2 c1 c2 g rc gr o l r Hch1 Hpr1 Hch2 Hpr2 Hidle Hrc Hgr Hfind.
  cbn zeta.
  rewrite (press_idle_run isect1 c1 g rc gr) by assumption. rewrite Hfind.
  unfold final at 2; cbn [fst snd].
  destruct (attached_fields gr o g) as (_ & _ & Hreg1 & Hh1).
  rewrite (onRightSqueeze_release_holding isect2 c2 _ o) by assumption.
  unfold completion, final, events; cbn [fst snd].
  destruct (detached_fields o (set_controllers l r (attached gr o g)))
    as (_ & _ & Hreg2 & Hh2).
  assert (Ho : scene (detached o (set_controllers l r (attached gr o g))) o =
               mkMesh (name (scene g o)) None (wakeUp <$> physicsImpostor (scene g o))).
  { rewrite detached_mesh. cbn [scene set_controllers].
    rewrite attached_mesh. cbn [name physicsImpostor].
    now rewrite fmap_wakeUp_sleep. }
  assert (Hother : forall m, m <> o ->
            scene (detached o (set_controllers l r (attached gr o g))) m = scene g m).
  { intros m Hm. rewrite detached_other by assumption. cbn [scene set_controllers].
    now apply attached_other. }
  split; [reflexivity|]. split; [assumption|].
  split; [rewrite Hreg2; exact Hreg1|]. split; [assumption|]. split; [assumption|].
  intros Hpar Hawake m. destruct (decide (m = o)) as [->|Hm]; [|now apply Hother].
  rewrite Ho. destruct (scene g o) as [nm par imp] eqn:Hs. cbn in *. subst par.
  f_equal. destruct imp as [[ms sl]|]; [|reflexivity].
  pose proof (Hawake _ eq_refl) as Hsl. cbn in Hsl. subst sl. reflexivity.
Qed.

Lemma grab_then_release_round_trip_witness :
  let g := set_controllers None (Some (Demo.hand "right" (Some 100) true true))
             Demo.released in
  let g1 := final (onRightSqueeze Demo.touchesBarrel (Some Demo.pressEdge) g) in
  let r2 := onRightSqueeze Demo.touchesNothing (Some Demo.releaseEdge)
              (set_controllers None None g1) in
  rightGrabbedObject g1 = Some 2 /\
  completion r2 = Normal tt /\
  rightGrabbedObject (final r2) = None /\
  forall m, scene (final r2) m = scene g m.
Proof.
  cbn zeta. split; [reflexivity|].
  destruct (grab_then_release_round_trip Demo.touchesBarrel Demo.touchesNothing
              Demo.pressEdge Demo.releaseEdge
              (set_controllers None (Some (Demo.hand "right" (Some 100) true true))
                 Demo.released)
              (Demo.hand "right" (Some 100) true true) 100 2 None None
              eq_refl eq_refl eq_refl eq_refl eq_refl eq_refl eq_refl eq_refl)
    as (Hc & Hh & _ & _ & _ & Hall).
  split; [exact Hc|]. split; [exact Hh|].
  apply Hall; [reflexivity|].
  intros i Hi. vm_compute in Hi. injection Hi as <-. reflexivity.
Defined.

(** ** The handlers that only log *)

Lemma onLeftTrigger_run component g :
  onLeftTrigger component g = (Normal tt, g, button_log "left trigger" component).
Proof.
  destruct component as [c|]; [|reflexivity]. unfold onLeftTrigger, button_log.
  destruct (changes_pressed (changes c)); [|reflexivity].
  destruct (pressed c); reflexivity.
Qed.

Lemma onLeftSqueeze_button_log component g :
  onLeftSqueeze component g = (Normal tt, g, button_log "left squeeze" component).
Proof.
  destruct component as [c|]; [|reflexivity]. unfold onLeftSqueeze, button_log.
  destruct (changes_pressed (changes c)); [|reflexivity].
  destruct (pressed c); reflexivity.
Qed.

Lemma onLeftX_run component g :
  onLeftX component g = (Normal tt, g, button_log "left X" component).
Proof.
  destruct component as [c|]; [|reflexivity]. unfold onLeftX, button_log.
  destruct (changes_pressed (changes c)); [|reflexivity].
  destruct (pressed c); reflexivity.
Qed.

Lemma onLeftY_run component g :
  onLeftY component g = (Normal tt, g, button_log "left Y" component).
Proof.
  destruct component as [c|]; [|reflexivity]. unfold onLeftY, button_log.
  destruct (changes_pressed (changes c)); [|reflexivity].
  destruct (pressed c); reflexivity.
Qed.

Lemma onRightTrigger_run component g :
  onRightTrigger component g = (Normal tt, g, button_log "right trigger" component).
Proof.
  destruct component as [c|]; [|reflexivity]. unfold onRightTrigger, button_log.
  destruct (changes_pressed (changes c)); [|reflexivity].
  destruct (pressed c); reflexivity.
Qed.

Lemma onRightA_run component g :
  onRightA component g = (Normal tt, g, button_log "right A" component).
Proof.
  destruct component as [c|]; [|reflexivity]. unfold onRightA, button_log.
  destruct (changes_pressed (changes c)); [|reflexivity].
  destruct (pressed c); reflexivity.
Qed.

Lemma onRightB_run component g :
  onRightB component g = (Normal tt, g, button_log "right B" component).
Proof.
  destruct component as [c|]; [|reflexivity]. unfold onRightB, button_log.
  destruct (changes_pressed (changes c)); [|reflexivity].
  destruct (pressed c); reflexivity.
Qed.

Lemma button_log_only_logs label component : only_logs (button_log label component).
Proof.
  intros e. destruct component as [c|]; cbn; [|tauto].
  destruct (changes_pressed (changes c)); cbn; [|tauto].
  intros [<-|[]]. reflexivity.
Qed.

Section PollingFacts.

Context {number : Type}.
Variable Number_toString : number -> string.
Variable intersectsMesh : NodeId -> NodeId -> bool.

Lemma onLeftThumbstick_run component axes g :
  onLeftThumbstick Number_toString component axes g =
    (Normal tt, g, thumbstick_log Number_toString "left thumbstick" component axes).
Proof.
  destruct component as [c|]; [|reflexivity].
  unfold onLeftThumbstick, thumbstick_log, button_log, bind, Logger_Log, emit, ret.
  destruct (changes_pressed (changes c)), (pressed c), (changes_axes axes);
    reflexivity.
Qed.

Lemma onRightThumbstick_run component axes g :
  onRightThumbstick Number_toString component axes g =
    (Normal tt, g, thumbstick_log Number_toString "right thumbstick" component axes).
Proof.
  destruct component as [c|]; [|reflexivity].
  unfold onRightThumbstick, thumbstick_log, button_log, bind, Logger_Log, emit, ret.
  destruct (changes_pressed (changes c)), (pressed c), (changes_axes axes);
    reflexivity.
Qed.

Lemma thumbstick_log_only_logs label component axes :
  only_logs (thumbstick_log Number_toString label component axes).
Proof.
  destruct component as [c|]; [|apply only_logs_nil].
  unfold thumbstick_log. apply only_logs_app; [apply button_log_only_logs|].
  destruct (changes_axes axes); [apply only_logs_one|apply only_logs_nil].
Qed.

Lemma logs_before_only_logs leftAxes g :
  only_logs (logs_before_right_squeeze Number_toString leftAxes g).
Proof.
  unfold logs_before_right_squeeze.
  repeat apply only_logs_app;
    auto using button_log_only_logs, thumbstick_log_only_logs.
Qed.

Lemma logs_after_only_logs rightAxes g :
  only_logs (logs_after_right_squeeze Number_toString rightAxes g).
Proof.
  unfold logs_after_right_squeeze.
  repeat apply only_logs_app;
    auto using button_log_only_logs, thumbstick_log_only_logs.
Qed.

Lemma onRightSqueeze_keeps_controllers component g :
  rightController (final (onRightSqueeze intersectsMesh component g)) =
    rightController g.
Proof.
  pose proof (onRightSqueeze_outcome_any intersectsMesh component g) as Hout.
  cbn zeta in Hout.
  destruct (onRightSqueeze intersectsMesh component g) as [[c g'] evs].
  unfold completion, final, events in *; cbn [fst snd] in *.
  inversion Hout; subst; [reflexivity|apply attached_fields|apply detached_fields].
Qed.

(** The whole polling pass in terms of its one handler that acts. *)
Lemma processControllerInput_run leftAxes rightAxes g :
  processControllerInput Number_toString intersectsMesh leftAxes rightAxes g =
    match onRightSqueeze intersectsMesh (squeezeComponent (rightController g)) g with
    | (Normal _, g', evs) =>
        (Normal tt, g',
         logs_before_right_squeeze Number_toString leftAxes g ++ evs ++
         logs_after_right_squeeze Number_toString rightAxes g)
    | (TypeError, g', evs) =>
        (TypeError, g', logs_before_right_squeeze Number_toString leftAxes g ++ evs)
    end.
Proof.
  pose proof (onRightSqueeze_keeps_controllers
                (squeezeComponent (rightController g)) g) as Hkeep.
  unfold processControllerInput, logs_before_right_squeeze,
    logs_after_right_squeeze, bind, get.
  rewrite onLeftTrigger_run, onLeftSqueeze_button_log, onLeftThumbstick_run,
    onLeftX_run, onLeftY_run, onRightTrigger_run.
  change (componentOf (rightController g) "xr-standard-squeeze")
    with (squeezeComponent (rightController g)).
  destruct (onRightSqueeze intersectsMesh (squeezeComponent (rightController g)) g)
    as [[[[]|] g'] evs]; unfold final in Hkeep; cbn [fst snd] in Hkeep.
  - rewrite onRightThumbstick_run, onRightA_run, onRightB_run, Hkeep.
    cbn [app]. repeat rewrite <- app_assoc. repeat rewrite app_nil_r. reflexivity.
  - cbn [app]. repeat rewrite <- app_assoc. reflexivity.
Qed.

End PollingFacts.

Lemma scene_effects_app l1 l2 :
  scene_effects (l1 ++ l2) = scene_effects l1 ++ scene_effects l2.
Proof. unfold scene_effects. apply filter_app. Qed.

Lemma scene_effects_only_logs lg : only_logs lg -> scene_effects lg = [].
Proof.
  unfold scene_effects. induction lg as [|e lg IH]; intros Hlg; [reflexivity|].
  rewrite filter_cons. rewrite (Hlg e) by now left. case_decide; [discriminate|].
  apply IH. intros e' He'. apply Hlg. now right.
Qed.

(** X11: a call of [update] changes the game state exactly as the right
    squeeze handler does on the polled component, completes or throws as it
    does, and makes the same calls on scene nodes; the other nine handlers
    only add log lines, before and after. When the right squeeze handler
    throws, the three handlers that come after it do not run. *)
Theorem update_acts_through_right_squeeze :
  forall (number : Type) (Number_toString : number -> string)
         (intersectsMesh : NodeId -> NodeId -> bool) leftAxes rightAxes g,
    let full := update Number_toString intersectsMesh leftAxes rightAxes g in
    let sq := onRightSqueeze intersectsMesh (squeezeComponent (rightController g)) g in
    completion full = completion sq /\
    final full = final sq /\
    scene_effects (events full) = scene_effects (events sq) /\
    events full =
      logs_before_right_squeeze Number_toString leftAxes g ++ events sq ++
      match completion sq with
      | Normal _ => logs_after_right_squeeze Number_toString rightAxes g
      | TypeError => []
      end /\
    only_logs (logs_before_right_squeeze Number_toString leftAxes g) /\
    only_logs (logs_after_right_squeeze Number_toString rightAxes g).
Proof.
  intros number ts isect la ra g. cbn zeta. unfold update.
  rewrite processControllerInput_run.
  pose proof (logs_before_only_logs ts la g) as Hb.
  pose proof (logs_after_only_logs ts ra g) as Ha.
  destruct (onRightSqueeze isect (squeezeComponent (rightController g)) g)
    as [[[[]|] g'] evs]; unfold completion, final, events; cbn [fst snd].
  - repeat split; auto.
    rewrite !scene_effects_app, (scene_effects_only_logs _ Hb),
      (scene_effects_only_logs _ Ha), app_nil_r. reflexivity.
  - repeat split; auto.
    + rewrite scene_effects_app, (scene_effects_only_logs _ Hb). reflexivity.
    + now rewrite app_nil_r.
Qed.

(** X12: [update] throws exactly when the polled right squeeze component
    reports a press edge, the hand is idle, the registry is not empty and the
    right input source has no grip; so it never throws while every right
    input source has a grip, nor before the assets are loaded. *)
Theorem update_throws_iff :
  forall (number : Type) (Number_toString : number -> string)
         (intersectsMesh : NodeId -> NodeId -> bool) leftAxes rightAxes g,
    let full := update Number_toString intersectsMesh leftAxes rightAxes g in
    (completion full = TypeError <->
       press_edge (squeezeComponent (rightController g)) = true /\
       rightGrabbedObject g = None /\
       grabbableObjects g <> [] /\
       gripOf (rightController g) = None) /\
    ((forall rc, rightController g = Some rc -> is_Some (grip rc)) ->
       completion full = Normal tt) /\
    (grabbableObjects g = [] -> completion full = Normal tt).
Proof.
  intros number ts isect la ra g. cbn zeta. unfold update.
  rewrite processControllerInput_run.
  set (component := squeezeComponent (rightController g)).
  pose proof (proj1 (onRightSqueeze_throw_cases isect component g)) as Hiff.
  assert (Hsame : completion
            match onRightSqueeze isect component g with
            | (Normal _, g', evs) =>
                (Normal tt, g',
                 logs_before_right_squeeze ts la g ++ evs ++
                 logs_after_right_squeeze ts ra g)
            | (TypeError, g', evs) =>
                (TypeError, g', logs_before_right_squeeze ts la g ++ evs)
            end = completion (onRightSqueeze isect component g)).
  { destruct (onRightSqueeze isect component g) as [[[[]|] g'] evs]; reflexivity. }
  rewrite Hsame. split; [exact Hiff|].
  assert (Hnormal : completion (onRightSqueeze isect component g) <> TypeError ->
                    completion (onRightSqueeze isect component g) = Normal tt).
  { destruct (completion (onRightSqueeze isect component g)) as [[]|]; congruence. }
  split.
  - intros Hgrip. apply Hnormal. rewrite Hiff.
    destruct (rightController g) as [rc|] eqn:Hrc.
    + intros (_ & _ & _ & Hno). unfold gripOf in Hno.
      destruct (Hgrip rc eq_refl) as [gr Hgr]. congruence.
    + intros (Hedge & _). subst component. discriminate.
  - intros Hnil. apply Hnormal. rewrite Hiff. intros (_ & _ & Hne & _). congruence.
Qed.

Lemma update_throws_iff_witness :
  completion (update (fun _ : nat => "0") Demo.touchesBoth
                (mkAxes false 0 0) (mkAxes false 0 0) Demo.gripless) = TypeError /\
  completion (update (fun _ : nat => "0") Demo.touchesBoth
                (mkAxes false 0 0) (mkAxes false 0 0) Demo.pressing) = Normal tt /\
  completion (update (fun _ : nat => "0") Demo.touchesBoth
                (mkAxes false 0 0) (mkAxes false 0 0)
                (set_controllers None (Some (Demo.hand "none" None true true))
                   (newGame Demo.nodes))) = Normal tt.
Proof.
  split; [|split].
  - apply (proj1 (update_throws_iff nat (fun _ => "0") Demo.touchesBoth
                    (mkAxes false 0 0) (mkAxes false 0 0) Demo.gripless)).
    repeat split; try reflexivity. vm_compute. discriminate.
  - apply (proj1 (proj2 (update_throws_iff nat (fun _ => "0") Demo.touchesBoth
                    (mkAxes false 0 0) (mkAxes false 0 0) Demo.pressing))).
    intros rc Hrc. vm_compute in Hrc. injection Hrc as <-. vm_compute. eauto.
  - apply (proj2 (proj2 (update_throws_iff nat (fun _ => "0") Demo.touchesBoth
                    (mkAxes false 0 0) (mkAxes false 0 0)
                    (set_controllers None (Some (Demo.hand "none" None true true))
                       (newGame Demo.nodes))))).
    reflexivity.
Defined.

(** ** Scene load on any state *)

Lemma name_loaded_mesh g m : name (loaded_mesh g m) = name (scene g m).
Proof.
  unfold loaded_mesh.
  destruct (String.eqb _ _); [reflexivity|].
  destruct (parent_is_Props g m); reflexivity.
Qed.

Lemma parent_is_Props_stable g g1 m :
  (forall n, name (scene g1 n) = name (scene g n)) ->
  scene g1 m = scene g m ->
  parent_is_Props g1 m = parent_is_Props g m.
Proof.
  intros Hname Hm. unfold parent_is_Props. rewrite Hm.
  destruct (parent (scene g m)); [|reflexivity]. now rewrite Hname.
Qed.

Lemma loaded_mesh_stable g g1 m :
  (forall n, name (scene g1 n) = name (scene g n)) ->
  scene g1 m = scene g m ->
  loaded_mesh g1 m = loaded_mesh g m /\ to_register g1 m = to_register g m.
Proof.
  intros Hname Hm. unfold loaded_mesh, to_register.
  rewrite (parent_is_Props_stable g g1 m Hname Hm), Hm. auto.
Qed.

Lemma loaded_mesh_idempotent g g1 m :
  (forall n, name (scene g1 n) = name (scene g n)) ->
  scene g1 m = loaded_mesh g m ->
  loaded_mesh g1 m = loaded_mesh g m /\ to_register g1 m = false.
Proof.
  intros Hname Hm. unfold loaded_mesh, to_register in *. rewrite Hname.
  unfold parent_is_Props at 1 3. rewrite Hm.
  destruct (String.eqb (name (scene g m)) "rpgpp_lt_table_01") eqn:Hn; cbn.
  - auto.
  - destruct (parent_is_Props g m) eqn:Hp; cbn; [auto|].
    unfold parent_is_Props in Hp.
    destruct (parent (scene g m)) as [p|]; [|auto].
    rewrite Hname, Hp. destruct (scene g m); auto.
Qed.

(** One iteration, from any state. *)
Lemma onFinish_mesh_any x g :
  exists g1 evs,
    onFinish_mesh x g = (Normal tt, g1, evs) /\
    leftController g1 = leftController g /\
    rightController g1 = rightController g /\
    rightGrabbedObject g1 = rightGrabbedObject g /\
    grabbableObjects g1 =
      grabbableObjects g ++ (if to_register g x then [x] else []) /\
    scene g1 x = loaded_mesh g x /\
    (forall m, m <> x -> scene g1 m = scene g m) /\
    load_events_only evs.
Proof.
  unfold to_register, loaded_mesh.
  destruct (String.eqb (name (scene g x)) "rpgpp_lt_table_01") eqn:Hn; cbn [negb andb].
  - rewrite onFinish_mesh_table by assumption.
    do 2 eexists. split; [reflexivity|]. cbn [leftController rightController
      rightGrabbedObject grabbableObjects scene set_scene].
    rewrite app_nil_r. do 4 (split; [reflexivity|]). split; [|split].
    + rewrite !alter_same. reflexivity.
    + intros m Hm. now rewrite !alter_other.
    + intros e [<-|[<-|[]]]; reflexivity.
  - destruct (parent_is_Props g x) eqn:Hp.
    + destruct (onFinish_mesh_prop x g Hn Hp)
        as (g1 & Hrun & Hl & Hr & Hh & Hreg & Hx & Hother).
      exists g1, [ESetParent x None; ENewImpostor x 1; ESleep x].
      repeat split; auto.
      intros e [<-|[<-|[<-|[]]]]; reflexivity.
    + rewrite onFinish_mesh_skip by assumption.
      exists g, []. rewrite app_nil_r. repeat split; auto. intros e [].
Qed.

Lemma name_after_onFinish_mesh x g g1 evs :
  onFinish_mesh x g = (Normal tt, g1, evs) ->
  scene g1 x = loaded_mesh g x ->
  (forall m, m <> x -> scene g1 m = scene g m) ->
  forall n, name (scene g1 n) = name (scene g n).
Proof.
  intros _ Hx Hother n. destruct (decide (n = x)) as [->|Hne].
  - rewrite Hx. apply name_loaded_mesh.
  - now rewrite Hother.
Qed.

(** The whole load, from any state. *)
Lemma onFinish_any loadedMeshes :
  forall g,
  exists g' evs,
    onFinish loadedMeshes g = (Normal tt, g', evs) /\
    leftController g' = leftController g /\
    rightController g' = rightController g /\
    rightGrabbedObject g' = rightGrabbedObject g /\
    (forall n, name (scene g' n) = name (scene g n)) /\
    (forall m, In m loadedMeshes -> scene g' m = loaded_mesh g m) /\
    (forall m, ~ In m loadedMeshes -> scene g' m = scene g m) /\
    load_events_only evs /\
    (NoDup loadedMeshes ->
     grabbableObjects g' =
       grabbableObjects g ++ List.filter (to_register g) loadedMeshes).
Proof.
  induction loadedMeshes as [|x rest IH]; intros g.
  - exists g, []. rewrite app_nil_r.
    do 5 (split; [reflexivity|]). split; [intros m []|].
    split; [reflexivity|]. split; [intros e []|reflexivity].
  - destruct (onFinish_mesh_any x g)
      as (g1 & e1 & Hrun1 & Hl1 & Hr1 & Hh1 & Hreg1 & Hx1 & Hother1 & Hev1).
    pose proof (name_after_onFinish_mesh x g g1 e1 Hrun1 Hx1 Hother1) as Hname1.
    destruct (IH g1)
      as (g2 & e2 & Hrun2 & Hl2 & Hr2 & Hh2 & Hname2 & Hin2 & Hout2 & Hev2 & Hreg2).
    exists g2, (e1 ++ e2). unfold onFinish in *. cbn [forEach].
    unfold bind. rewrite Hrun1, Hrun2.
    split; [reflexivity|]. do 3 (split; [congruence|]).
    split; [intros n; now rewrite Hname2|].
    split; [|split; [|split]].
    + intros m Hm. destruct (in_dec Nat.eq_dec m rest) as [Hrest|Hrest].
      * rewrite (Hin2 m Hrest). destruct (decide (m = x)) as [->|Hne].
        -- now apply loaded_mesh_idempotent.
        -- apply loaded_mesh_stable; auto.
      * rewrite (Hout2 m Hrest). destruct Hm as [<-|Hm]; [assumption|contradiction].
    + intros m Hm. rewrite Hout2 by (intros H; apply Hm; now right).
      apply Hother1. intros ->. apply Hm. now left.
    + intros e He. apply in_app_or in He as [He|He]; auto.
    + intros Hnd. apply NoDup_cons in Hnd as [Hx Hnd].
      rewrite (Hreg2 Hnd), Hreg1. cbn [List.filter].
      assert (Hf : List.filter (to_register g1) rest = List.filter (to_register g) rest).
      { apply List.filter_ext_in. intros m Hm.
        apply loaded_mesh_stable; auto. apply Hother1. intros ->.
        apply Hx. now apply list_elem_of_In. }
      rewrite Hf, <- app_assoc. destruct (to_register g x); reflexivity.
Qed.

(** X9: from any state, [onFinish] completes normally and leaves the
    controllers and the grab binding alone; a node that is not among the
    loaded meshes is unchanged; a loaded mesh named "rpgpp_lt_table_01" ends
    at the world root with an awake impostor of mass 0; any other loaded mesh
    whose parent is named "Props" ends at the world root with a sleeping
    impostor of mass 1; every other loaded mesh is unchanged. No node is
    renamed. *)
Theorem onFinish_scene :
  forall loadedMeshes g,
    let r := onFinish loadedMeshes g in
    completion r = Normal tt /\
    leftController (final r) = leftController g /\
    rightController (final r) = rightController g /\
    rightGrabbedObject (final r) = rightGrabbedObject g /\
    (forall m, name (scene (final r) m) = name (scene g m)) /\
    (forall m, ~ In m loadedMeshes -> scene (final r) m = scene g m) /\
    (forall m, In m loadedMeshes ->
       scene (final r) m =
         if String.eqb (name (scene g m)) "rpgpp_lt_table_01" then
           mkMesh (name (scene g m)) None (Some (mkImpostor 0 false))
         else if parent_is_Props g m then
           mkMesh (name (scene g m)) None (Some (mkImpostor 1 true))
         else scene g m).
Proof.
  intros l g. cbn zeta.
  destruct (onFinish_any l g)
    as (g' & evs & Hrun & Hl & Hr & Hh & Hname & Hin & Hout & _ & _).
  rewrite Hrun. unfold completion, final; cbn [fst snd].
  repeat split; auto.
Qed.

Lemma onFinish_scene_witness :
  scene (final (onFinish Demo.loadedMeshes (newGame Demo.nodes))) 3 =
    mkMesh "rpgpp_lt_table_01" None (Some (mkImpostor 0 false)) /\
  scene (final (onFinish Demo.loadedMeshes (newGame Demo.nodes))) 1 =
    mkMesh "crate" None (Some (mkImpostor 1 true)) /\
  scene (final (onFinish Demo.loadedMeshes (newGame Demo.nodes))) 7 =
    scene (newGame Demo.nodes) 7.
Proof.
  split; [|split].
  - apply (proj2 (proj2 (proj2 (proj2 (proj2 (proj2
             (onFinish_scene Demo.loadedMeshes (newGame Demo.nodes)))))))
             3).
    vm_compute. auto.
  - apply (proj2 (proj2 (proj2 (proj2 (proj2 (proj2
             (onFinish_scene Demo.loadedMeshes (newGame Demo.nodes)))))))
             1).
    vm_compute. auto.
  - apply (proj1 (proj2 (proj2 (proj2 (proj2 (proj2
             (onFinish_scene Demo.loadedMeshes (newGame Demo.nodes)))))))
             7).
    vm_compute. intuition discriminate.
Defined.

(** X10: when the loaded meshes are distinct, [onFinish] appends to the
    registry, in load order, exactly the loaded meshes that are not named
    "rpgpp_lt_table_01" and whose parent is named "Props"; with no loaded
    mesh the registry is unchanged. *)
Theorem onFinish_registry :
  forall loadedMeshes g,
    NoDup loadedMeshes ->
    grabbableObjects (final (onFinish loadedMeshes g)) =
      grabbableObjects g ++
      List.filter
        (fun m => negb (String.eqb (name (scene g m)) "rpgpp_lt_table_01")
                  && parent_is_Props g m)
        loadedMeshes.
Proof.
  intros l g Hnd.
  destruct (onFinish_any l g) as (g' & evs & Hrun & _ & _ & _ & _ & _ & _ & _ & Hreg).
  rewrite Hrun. unfold final; cbn [fst snd]. exact (Hreg Hnd).
Qed.

Lemma onFinish_registry_witness :
  grabbableObjects (final (onFinish Demo.loadedMeshes (newGame Demo.nodes))) =
    grabbableObjects (newGame Demo.nodes) ++
    List.filter
      (fun m => negb (String.eqb (name (scene (newGame Demo.nodes) m))
                        "rpgpp_lt_table_01")
                && parent_is_Props (newGame Demo.nodes) m)
      Demo.loadedMeshes.
Proof.
  apply (onFinish_registry Demo.loadedMeshes (newGame Demo.nodes)).
  apply (bool_decide_unpack _). vm_compute. exact I.
Defined.

(** ** Counting grabs and releases *)

Lemma attach_calls_app m l1 l2 :
  attach_calls m (l1 ++ l2) = attach_calls m l1 + attach_calls m l2.
Proof. unfold attach_calls. now rewrite List.filter_app, length_app. Qed.

Lemma wakeUp_calls_app m l1 l2 :
  wakeUp_calls m (l1 ++ l2) = wakeUp_calls m l1 + wakeUp_calls m l2.
Proof. unfold wakeUp_calls. now rewrite filter_app, length_app. Qed.

Lemma no_calls_when (P : Event -> Prop) m evs :
  (forall e, P e -> is_attach m e = false /\ e <> EWakeUp m) ->
  (forall e, In e evs -> P e) ->
  attach_calls m evs = 0 /\ wakeUp_calls m evs = 0.
Proof.
  intros HP. induction evs as [|e evs IH]; intros Hall; [split; reflexivity|].
  destruct (HP e (Hall e (or_introl eq_refl))) as [Ha Hw].
  destruct IH as [IHa IHw]; [intros e' He'; apply Hall; now right|].
  unfold attach_calls, wakeUp_calls in *. cbn [List.filter]. rewrite Ha.
  rewrite filter_cons. case_decide; [contradiction|]. auto.
Qed.

Lemma no_calls_in_logs m lg :
  only_logs lg -> attach_calls m lg = 0 /\ wakeUp_calls m lg = 0.
Proof.
  apply (no_calls_when (fun e => is_log e = true)).
  intros [] He; try discriminate. split; [reflexivity|discriminate].
Qed.

Lemma no_calls_in_load m evs :
  load_events_only evs -> attach_calls m evs = 0 /\ wakeUp_calls m evs = 0.
Proof.
  apply (no_calls_when (fun e => is_load_event e = true)).
  intros [msg|x [p|]|x k|x|x] He; try discriminate;
    (split; [reflexivity|discriminate]).
Qed.

Lemma calls_in_attach_events g gr o m :
  attach_calls m (attach_events g gr o) = (if decide (Some o = Some m) then 1 else 0) /\
  wakeUp_calls m (attach_events g gr o) = 0.
Proof.
  unfold attach_events, attach_calls, wakeUp_calls.
  destruct (physicsImpostor (scene g o)); cbn [app List.filter is_attach];
    rewrite ?filter_cons, ?filter_nil; repeat case_decide; try discriminate;
    try congruence.
  all: destruct (Nat.eqb_spec m o); try congruence; auto.
Qed.

Lemma calls_in_detach_events g o m i :
  physicsImpostor (scene g o) = Some i ->
  attach_calls m (detach_events g o) = 0 /\
  wakeUp_calls m (detach_events g o) = (if decide (Some o = Some m) then 1 else 0).
Proof.
  intros Hi. unfold detach_events, attach_calls, wakeUp_calls. rewrite Hi.
  cbn [List.filter is_attach length]. split; [reflexivity|].
  rewrite !filter_cons, filter_nil.
  repeat case_decide; try discriminate; try congruence; reflexivity.
Qed.

(** ** The registry and the grab binding along a run *)

Lemma Sound_new sc : Sound false (newGame sc).
Proof.
  constructor; cbn.
  - auto.
  - intros m [].
  - discriminate.
Qed.

Lemma Sound_assets g sc : Sound false g -> Sound false (set_scene sc g).
Proof.
  intros [Hun _ _]. destruct (Hun eq_refl) as [Hnil Hidle].
  constructor; cbn.
  - auto.
  - rewrite Hnil. intros m [].
  - rewrite Hidle. discriminate.
Qed.

Lemma Sound_controllers b g l r : Sound b g -> Sound b (set_controllers l r g).
Proof. intros [Hun Hreg Hheld]. constructor; cbn; auto. Qed.

Lemma onControllerAdded_run inputSource g :
  exists l r, onControllerAdded inputSource g = (Normal tt, set_controllers l r g, []).
Proof.
  unfold onControllerAdded. destruct (endsWith _ _); do 2 eexists; reflexivity.
Qed.

Lemma Sound_finish g loadedMeshes :
  Sound false g -> Sound true (final (onFinish loadedMeshes g)).
Proof.
  intros [Hun _ _]. destruct (Hun eq_refl) as [Hnil Hidle].
  assert (Hld : registry_loaded g)
    by (intros m Hin; rewrite Hnil in Hin; destruct Hin).
  destruct (onFinish_run loadedMeshes g Hld)
    as (g' & evs & Hrun & Hld' & _ & _ & Hh & _).
  rewrite Hrun. unfold final; cbn [fst snd]. constructor.
  - discriminate.
  - intros m Hin. destruct (Hld' m Hin) as (Hn & Hp & Hi).
    split; [assumption|]. split; [|auto].
    exists (mkImpostor 1 true). auto.
  - intros o Ho. congruence.
Qed.

Lemma Sound_outcome intersectsMesh b g c g' evs :
  frame_outcome intersectsMesh g c g' evs -> Sound b g -> Sound b g'.
Proof.
  intros Hout [Hun Hreg Hheld].
  inversion Hout as [c0 lg Hlg | rc gr o lg Hidle Hrc Hgr Hfind Hlg
                    | o lg Hholding Hlg]; subst.
  - constructor; assumption.
  - destruct (attached_fields gr o g) as (_ & _ & Hreg' & Hh').
    destruct (find_In _ _ _ Hfind) as [Hino _].
    destruct (Hreg o Hino) as (Hno & (i & Hi & Hmass) & _).
    constructor.
    + intros ->. destruct (Hun eq_refl) as [Hnil _].
      rewrite Hnil in Hino. destruct Hino.
    + rewrite Hreg', Hh'. intros m Hin. destruct (decide (m = o)) as [->|Hne].
      * rewrite attached_mesh, Hi. cbn. split; [assumption|].
        split; [exists (sleep i); auto|]. congruence.
      * rewrite attached_other by assumption.
        destruct (Hreg m Hin) as (Hn & Him & Hp).
        split; [assumption|]. split; [assumption|].
        intros _. apply Hp. congruence.
    + rewrite Hh', Hreg'. intros o' [= <-].
      split; [assumption|]. rewrite attached_mesh, Hi. cbn.
      split; [eauto|]. exists (sleep i). auto.
  - destruct (detached_fields o g) as (_ & _ & Hreg' & Hh').
    destruct (Hheld o Hholding) as (Hino & _ & _).
    destruct (Hreg o Hino) as (Hno & (i & Hi & Hmass) & _).
    constructor.
    + intros ->. destruct (Hun eq_refl) as [_ Hidle]. congruence.
    + rewrite Hreg', Hh'. intros m Hin. destruct (decide (m = o)) as [->|Hne].
      * rewrite detached_mesh, Hi. cbn. split; [assumption|].
        split; [exists (wakeUp i); auto|]. auto.
      * rewrite detached_other by assumption.
        destruct (Hreg m Hin) as (Hn & Him & Hp).
        split; [assumption|]. split; [assumption|].
        intros _. apply Hp. congruence.
    + rewrite Hh'. discriminate.
Qed.

Lemma balanced_same_binding g g' tr evs :
  rightGrabbedObject g' = rightGrabbedObject g ->
  (forall m, attach_calls m evs = 0 /\ wakeUp_calls m evs = 0) ->
  balanced g tr -> balanced g' (tr ++ evs).
Proof.
  intros Hh Hz Hb m. rewrite attach_calls_app, wakeUp_calls_app, Hh.
  destruct (Hz m) as [-> ->]. rewrite (Hb m). lia.
Qed.

Lemma balanced_outcome intersectsMesh b g c g' evs tr l1 l2 :
  frame_outcome intersectsMesh g c g' evs -> Sound b g -> balanced g tr ->
  only_logs l1 -> only_logs l2 ->
  balanced g' (tr ++ l1 ++ evs ++ l2).
Proof.
  intros Hout [Hun Hreg Hheld] Hb H1 H2 m.
  rewrite !attach_calls_app, !wakeUp_calls_app.
  destruct (no_calls_in_logs m l1 H1) as [-> ->].
  destruct (no_calls_in_logs m l2 H2) as [-> ->].
  specialize (Hb m).
  inversion Hout as [c0 lg Hlg | rc gr o lg Hidle Hrc Hgr Hfind Hlg
                    | o lg Hholding Hlg]; subst.
  - destruct (no_calls_in_logs m evs Hlg) as [-> ->]. lia.
  - destruct (attached_fields gr o g) as (_ & _ & _ & Hh').
    rewrite attach_calls_app, wakeUp_calls_app.
    destruct (no_calls_in_logs m lg Hlg) as [-> ->].
    destruct (calls_in_attach_events g gr o m) as [-> ->].
    rewrite Hh'. rewrite Hidle in Hb.
    destruct (decide (None = Some m)); [discriminate|]. lia.
  - destruct (detached_fields o g) as (_ & _ & _ & Hh').
    destruct (Hheld o Hholding) as (_ & _ & (i & Hi & _)).
    rewrite attach_calls_app, wakeUp_calls_app.
    destruct (no_calls_in_logs m lg Hlg) as [-> ->].
    destruct (calls_in_detach_events g o m i Hi) as [-> ->].
    rewrite Hh'. rewrite Hholding in Hb.
    destruct (decide (None = Some m)); [discriminate|]. lia.
Qed.

Section ProgramFacts.

Context {number : Type}.
Variable Number_toString : number -> string.

(** How [update] relates to the outcome of the polled right squeeze. *)
Lemma update_outcome intersectsMesh leftAxes rightAxes g :
  exists c evs l1 l2,
    frame_outcome intersectsMesh g c
      (final (update Number_toString intersectsMesh leftAxes rightAxes g)) evs /\
    events (update Number_toString intersectsMesh leftAxes rightAxes g) =
      l1 ++ evs ++ l2 /\
    only_logs l1 /\ only_logs l2.
Proof.
  unfold update. rewrite processControllerInput_run.
  pose proof (onRightSqueeze_outcome intersectsMesh g) as Hout. cbn zeta in Hout.
  pose proof (logs_before_only_logs Number_toString leftAxes g) as Hb.
  pose proof (logs_after_only_logs Number_toString rightAxes g) as Ha.
  destruct (onRightSqueeze intersectsMesh (squeezeComponent (rightController g)) g)
    as [[[[]|] g'] evs]; unfold completion, final, events in *; cbn [fst snd] in *.
  - exists (Normal tt), evs, (logs_before_right_squeeze Number_toString leftAxes g),
      (logs_after_right_squeeze Number_toString rightAxes g). auto.
  - exists TypeError, evs, (logs_before_right_squeeze Number_toString leftAxes g), [].
    rewrite app_nil_r. repeat split; auto. apply only_logs_nil.
Qed.

Lemma program_reachable_sound b g tr :
  program_reachable Number_toString b g tr -> Sound b g /\ balanced g tr.
Proof.
  induction 1 as [sc | g tr sc _ [IHs IHb] | b g tr src _ [IHs IHb]
                 | b g tr l r _ [IHs IHb] _ _ | g tr l _ [IHs IHb]
                 | b g tr isect la ra _ [IHs IHb]].
  - split; [apply Sound_new|]. intros m. reflexivity.
  - split; [now apply Sound_assets|]. exact IHb.
  - destruct (onControllerAdded_run src g) as (l & r & ->).
    unfold final, events; cbn [fst snd]. rewrite app_nil_r.
    split; [now apply Sound_controllers|]. exact IHb.
  - split; [now apply Sound_controllers|]. exact IHb.
  - split; [now apply Sound_finish|].
    destruct (onFinish_any l g) as (g' & evs & Hrun & _ & _ & Hh & _ & _ & _ & Hev & _).
    rewrite Hrun. unfold final, events; cbn [fst snd].
    apply (balanced_same_binding g); auto.
    intros m. now apply no_calls_in_load.
  - destruct (update_outcome isect la ra g) as (c & evs & l1 & l2 & Hout & -> & H1 & H2).
    split; [exact (Sound_outcome _ _ _ _ _ _ Hout IHs)|].
    exact (balanced_outcome _ _ _ _ _ _ _ _ _ Hout IHs IHb H1 H2).
Qed.

End ProgramFacts.

(** ** The concrete run is one of the program *)

Lemma demo_run_added_reachable :
  program_reachable DemoRun.render true DemoRun.added DemoRun.addedTrace.
Proof. apply prog_added, prog_finish, prog_new. Defined.

Lemma demo_run_grabbed_reachable :
  program_reachable DemoRun.render true DemoRun.grabbed DemoRun.grabbedTrace.
Proof. apply prog_update, demo_run_added_reachable. Defined.

Lemma demo_run_released_reachable :
  program_reachable DemoRun.render true DemoRun.released DemoRun.releasedTrace.
Proof.
  apply prog_update, prog_refreshed; [apply demo_run_grabbed_reachable| |].
  - exact I.
  - split; reflexivity.
Defined.

Lemma demo_run_early_reachable :
  program_reachable DemoRun.render false DemoRun.early DemoRun.earlyTrace.
Proof. apply prog_added, prog_new. Defined.

Example demo_run_trace :
  DemoRun.releasedTrace =
    [ESetParent 1 None; ENewImpostor 1 1; ESleep 1;
     ESetParent 2 None; ENewImpostor 2 1; ESleep 2;
     ESetParent 3 None; ENewImpostor 3 0;
     ELog "right squeeze pressed"; ESleep 2; ESetParent 2 (Some 100);
     ELog "right squeeze released"; ESetParent 2 None; EWakeUp 2].
Proof. reflexivity. Qed.

(** X6: along every run of the program, and for every mesh [m], the number
    of times [m] was parented to a grip equals the number of [wakeUp] calls
    on [m], plus one while [m] is held: grabs and releases of a mesh
    alternate, starting with a grab. *)
Theorem grabs_and_releases_balance :
  forall (number : Type) (Number_toString : number -> string) b g tr,
    program_reachable Number_toString b g tr ->
    forall m,
      attach_calls m tr =
      wakeUp_calls m tr + (if decide (rightGrabbedObject g = Some m) then 1 else 0).
Proof.
  intros number ts b g tr Hreach.
  exact (proj2 (program_reachable_sound ts b g tr Hreach)).
Qed.

Lemma grabs_and_releases_balance_witness :
  attach_calls 2 DemoRun.grabbedTrace =
    wakeUp_calls 2 DemoRun.grabbedTrace +
    (if decide (rightGrabbedObject DemoRun.grabbed = Some 2) then 1 else 0) /\
  attach_calls 2 DemoRun.releasedTrace =
    wakeUp_calls 2 DemoRun.releasedTrace +
    (if decide (rightGrabbedObject DemoRun.released = Some 2) then 1 else 0).
Proof.
  split.
  - exact (grabs_and_releases_balance nat DemoRun.render true DemoRun.grabbed
             DemoRun.grabbedTrace demo_run_grabbed_reachable 2).
  - exact (grabs_and_releases_balance nat DemoRun.render true DemoRun.released
             DemoRun.releasedTrace demo_run_released_reachable 2).
Defined.

(** X7: along every run of the program, every registered mesh is not the
    table, carries an impostor of mass 1, and is at the world root unless it
    is the held mesh; the held mesh is registered, has a parent and a
    sleeping impostor. Before the load the registry is empty and the hand is
    idle. *)
Theorem registered_meshes_along_runs :
  forall (number : Type) (Number_toString : number -> string) b g tr,
    program_reachable Number_toString b g tr ->
    (b = false -> grabbableObjects g = [] /\ rightGrabbedObject g = None) /\
    (forall m, In m (grabbableObjects g) ->
        String.eqb (name (scene g m)) "rpgpp_lt_table_01" = false /\
        (exists i, physicsImpostor (scene g m) = Some i /\ mass i = 1) /\
        (rightGrabbedObject g <> Some m -> parent (scene g m) = None)) /\
    (forall o, rightGrabbedObject g = Some o ->
        In o (grabbableObjects g) /\
        (exists gr, parent (scene g o) = Some gr) /\
        (exists i, physicsImpostor (scene g o) = Some i /\ sleeping i = true)).
Proof.
  intros number ts b g tr Hreach.
  destruct (proj1 (program_reachable_sound ts b g tr Hreach)) as [Hun Hreg Hheld].
  auto.
Qed.

Lemma registered_meshes_along_runs_witness :
  (parent (scene DemoRun.grabbed 1) = None) /\
  (In 2 (grabbableObjects DemoRun.grabbed) /\
   (exists gr, parent (scene DemoRun.grabbed 2) = Some gr) /\
   (exists i, physicsImpostor (scene DemoRun.grabbed 2) = Some i /\
              sleeping i = true)) /\
  (grabbableObjects DemoRun.early = [] /\ rightGrabbedObject DemoRun.early = None).
Proof.
  split; [|split].
  - apply (proj1 (proj2 (registered_meshes_along_runs nat DemoRun.render true
             DemoRun.grabbed DemoRun.grabbedTrace demo_run_grabbed_reachable)) 1).
    + vm_compute. auto.
    + vm_compute. discriminate.
  - apply (proj2 (proj2 (registered_meshes_along_runs nat DemoRun.render true
             DemoRun.grabbed DemoRun.grabbedTrace demo_run_grabbed_reachable)) 2).
    reflexivity.
  - apply (proj1 (registered_meshes_along_runs nat DemoRun.render false
             DemoRun.early DemoRun.earlyTrace demo_run_early_reachable)).
    reflexivity.
Defined.

(** X8: in every state of a run, a call of [update] leaves every node that
    is not in the registry exactly as it was (the table, the groups, the
    grips), and leaves the registry and the controllers as they were. *)
Theorem update_touches_registered_meshes_only :
  forall (number : Type) (Number_toString : number -> string) b g tr,
    program_reachable Number_toString b g tr ->
    forall (intersectsMesh : NodeId -> NodeId -> bool) leftAxes rightAxes,
      let r := update Number_toString intersectsMesh leftAxes rightAxes g in
      grabbableObjects (final r) = grabbableObjects g /\
      leftController (final r) = leftController g /\
      rightController (final r) = rightController g /\
      forall m, ~ In m (grabbableObjects g) -> scene (final r) m = scene g m.
Proof.
  intros number ts b g tr Hreach isect la ra. cbn zeta.
  destruct (proj1 (program_reachable_sound ts b g tr Hreach)) as [_ _ Hheld].
  destruct (update_outcome ts isect la ra g) as (c & evs & l1 & l2 & Hout & _).
  remember (final (update ts isect la ra g)) as g' eqn:Hg'. clear Hg'.
  inversion Hout as [c0 lg Hlg | rc gr o lg Hidle Hrc Hgr Hfind Hlg
                    | o lg Hholding Hlg]; subst.
  - repeat split; auto.
  - destruct (attached_fields gr o g) as (Hl & Hr & Hreg & _).
    destruct (find_In _ _ _ Hfind) as [Hino _].
    do 3 (split; [assumption|]).
    intros m Hm. apply attached_other. intros ->. contradiction.
  - destruct (detached_fields o g) as (Hl & Hr & Hreg & _).
    destruct (Hheld o Hholding) as (Hino & _).
    do 3 (split; [assumption|]).
    intros m Hm. apply detached_other. intros ->. contradiction.
Qed.

Lemma update_touches_registered_meshes_only_witness :
  let r := update DemoRun.render Demo.touchesBarrel DemoRun.still DemoRun.still
             DemoRun.added in
  grabbableObjects (final r) = grabbableObjects DemoRun.added /\
  leftController (final r) = leftController DemoRun.added /\
  rightController (final r) = rightController DemoRun.added /\
  forall m, ~ In m (grabbableObjects DemoRun.added) ->
            scene (final r) m = scene DemoRun.added m.
Proof.
  exact (update_touches_registered_meshes_only nat DemoRun.render true
           DemoRun.added DemoRun.addedTrace demo_run_added_reachable
           Demo.touchesBarrel DemoRun.still DemoRun.still).
Defined.

(** X13: before the assets are loaded, a call of [update] completes
    normally and leaves the game state exactly as it was, whatever the
    controllers report and even without a grip; it can only log. *)
Theorem update_before_load_is_harmless :
  forall (number : Type) (Number_toString : number -> string) g tr,
    program_reachable Number_toString false g tr ->
    forall (intersectsMesh : NodeId -> NodeId -> bool) leftAxes rightAxes,
      let r := update Number_toString intersectsMesh leftAxes rightAxes g in
      completion r = Normal tt /\ final r = g /\ scene_effects (events r) = [].
Proof.
  intros number ts g tr Hreach isect la ra. cbn zeta.
  destruct (proj1 (program_reachable_sound ts false g tr Hreach)) as [Hun _ _].
  destruct (Hun eq_refl) as [Hnil Hidle].
  unfold update. rewrite processControllerInput_run.
  pose proof (logs_before_only_logs ts la g) as Hb.
  pose proof (logs_after_only_logs ts ra g) as Ha.
  assert (Hsq : exists lg,
            onRightSqueeze isect (squeezeComponent (rightController g)) g =
              (Normal tt, g, lg) /\ only_logs lg).
  { destruct (squeezeComponent (rightController g)) as [c|];
      [|exists []; split; [reflexivity|apply only_logs_nil]].
    destruct (changes_pressed (changes c)) eqn:Hch.
    2:{ exists []. rewrite (onRightSqueeze_no_edge _ (Some c)) by exact Hch.
        split; [reflexivity|apply only_logs_nil]. }
    destruct (pressed c) eqn:Hpr.
    - exists [ELog "right squeeze pressed"].
      rewrite onRightSqueeze_press by assumption. rewrite Hnil.
      split; [reflexivity|apply only_logs_one].
    - exists [ELog "right squeeze released"].
      rewrite onRightSqueeze_release_idle by assumption.
      split; [reflexivity|apply only_logs_one]. }
  destruct Hsq as (lg & -> & Hlg).
  unfold completion, final, events; cbn [fst snd].
  repeat split.
  rewrite !scene_effects_app, (scene_effects_only_logs _ Hb),
    (scene_effects_only_logs _ Hlg), (scene_effects_only_logs _ Ha). reflexivity.
Qed.

Lemma update_before_load_is_harmless_witness :
  let r := update DemoRun.render Demo.touchesBoth DemoRun.still DemoRun.still
             DemoRun.early in
  completion r = Normal tt /\ final r = DemoRun.early /\
  scene_effects (events r) = [].
Proof.
  exact (update_before_load_is_harmless nat DemoRun.render DemoRun.early
           DemoRun.earlyTrace demo_run_early_reachable
           Demo.touchesBoth DemoRun.still DemoRun.still).
Defined.

Lemma find_ext_in (f1 f2 : NodeId -> bool) l :
  (forall m, In m l -> f1 m = f2 m) -> find f1 l = find f2 l.
Proof.
  induction l as [|x l IH]; intros H; [reflexivity|]. cbn.
  rewrite <- (H x) by now left. destruct (f1 x); [reflexivity|].
  apply IH. intros m Hm. apply H. now right.
Qed.

(** X14: the outcome of the right squeeze handler depends on the overlap
    test only through the overlaps of the right grip with registered meshes:
    two frames that agree on those give the same completion, the same state
    and the same events. Overlaps with unregistered nodes, or of any other
    collider, never matter. *)
Theorem grab_depends_on_registry_overlaps_only :
  forall (isect1 isect2 : NodeId -> NodeId -> bool) component g,
    (forall gr m,
        gripOf (rightController g) = Some gr ->
        In m (grabbableObjects g) ->
        isect1 gr m = isect2 gr m) ->
    onRightSqueeze isect1 component g = onRightSqueeze isect2 component g.
Proof.
  intros isect1 isect2 component g Hagree.
  destruct component as [c|]; [|reflexivity].
  destruct (changes_pressed (changes c)) eqn:Hch.
  2:{ now rewrite !(onRightSqueeze_no_edge _ (Some c)) by exact Hch. }
  destruct (pressed c) eqn:Hpr.
  - destruct (rightGrabbedObject g) as [o|] eqn:Hheld.
    { now rewrite !(press_holding_run _ c g o) by assumption. }
    destruct (grabbableObjects g) as [|x rest] eqn:Hreg.
    { rewrite !onRightSqueeze_press by assumption. rewrite Hreg. reflexivity. }
    destruct (gripOf (rightController g)) as [gr|] eqn:Hgrip.
    + unfold gripOf in Hgrip.
      destruct (rightController g) as [rc|] eqn:Hrc; [|discriminate].
      rewrite !(press_idle_run _ c g rc gr) by assumption.
      rewrite (find_ext_in (isect1 gr) (isect2 gr) (grabbableObjects g)); [reflexivity|].
      intros m Hm. apply Hagree; [reflexivity|]. now rewrite <- Hreg.
    + now rewrite !(press_without_grip_run _ c g x rest) by assumption.
  - destruct (rightGrabbedObject g) as [o|] eqn:Hheld.
    + now rewrite !(onRightSqueeze_release_holding _ _ _ o) by assumption.
    + now rewrite !onRightSqueeze_release_idle by assumption.
Qed.

Lemma grab_depends_on_registry_overlaps_only_witness :
  onRightSqueeze Demo.touchesBarrel (Some Demo.pressEdge) Demo.pressing =
  onRightSqueeze (fun a b => Nat.eqb b 2 || Nat.eqb b 3 || Nat.eqb a 101)
    (Some Demo.pressEdge) Demo.pressing.
Proof.
  apply (grab_depends_on_registry_overlaps_only Demo.touchesBarrel
           (fun a b => Nat.eqb b 2 || Nat.eqb b 3 || Nat.eqb a 101)
           (Some Demo.pressEdge) Demo.pressing).
  intros gr m Hgr Hm. vm_compute in Hgr. injection Hgr as <-.
  vm_compute in Hm. destruct Hm as [<-|[<-|[]]]; reflexivity.
Defined.

(** * The holding hand along the runs of the program *)

Lemma attached_since_logs O gr tr lg :
  attached_since O gr tr -> only_logs lg -> attached_since O gr (tr ++ lg).
Proof.
  intros (before & logs & -> & Hlogs) Hlg. exists before, (logs ++ lg).
  split; [|now apply only_logs_app].
  rewrite <- app_assoc. reflexivity.
Qed.

Lemma attached_since_grab g gr o tr l1 lg l2 :
  only_logs l2 ->
  attached_since o gr (tr ++ l1 ++ (lg ++ attach_events g gr o) ++ l2).
Proof.
  intros H2. unfold attach_events.
  exists (tr ++ l1 ++ lg ++
          match physicsImpostor (scene g o) with
          | Some _ => [ESleep o]
          | None => []
          end), l2.
  split; [|assumption].
  repeat (rewrite <- app_assoc; cbn [app]). reflexivity.
Qed.

Lemma refreshed_gripOf c c' : refreshed c c' -> gripOf c' = gripOf c.
Proof.
  destruct c as [a|], c' as [a'|]; cbn; tauto.
Qed.

Section HoldingHand.

Context {number : Type}.
Variable Number_toString : number -> string.

Lemma steady_is_reachable b g tr :
  program_reachable_steady Number_toString b g tr ->
  program_reachable Number_toString b g tr.
Proof.
  induction 1.
  - apply prog_new.
  - now apply prog_assets.
  - now apply prog_added.
  - now apply prog_refreshed.
  - now apply prog_finish.
  - now apply prog_update.
Qed.

(** In every run, the held object is where its grab put it. *)
Lemma held_object_attached_since b g tr :
  program_reachable Number_toString b g tr ->
  forall O, rightGrabbedObject g = Some O ->
    exists gr, attached_since O gr tr /\ parent (scene g O) = Some gr.
Proof.
  induction 1 as [sc | g tr sc Hreach _ | b g tr src _ IH
                 | b g tr l r _ IH _ _ | g tr l Hreach _
                 | b g tr isect la ra Hreach IH].
  - discriminate.
  - destruct (proj1 (program_reachable_sound _ _ _ _ Hreach)) as [Hun _ _].
    destruct (Hun eq_refl) as [_ Hidle]. cbn. rewrite Hidle. discriminate.
  - destruct (onControllerAdded_run src g) as (l & r & ->).
    unfold final, events; cbn [fst snd]. rewrite app_nil_r. exact IH.
  - exact IH.
  - destruct (proj1 (program_reachable_sound _ _ _ _ Hreach)) as [Hun _ _].
    destruct (Hun eq_refl) as [_ Hidle].
    destruct (onFinish_any l g) as (g' & evs & Hrun & _ & _ & Hh & _).
    rewrite Hrun. unfold final; cbn [fst snd]. rewrite Hh, Hidle. discriminate.
  - destruct (update_outcome Number_toString isect la ra g)
      as (c & evs & l1 & l2 & Hout & -> & H1 & H2).
    remember (final (update Number_toString isect la ra g)) as g' eqn:Hg'.
    clear Hg'.
    inversion Hout as [c0 lg Hlg | rc gr o lg Hidle Hrc Hgr Hfind Hlg
                      | o lg Hholding Hlg]; subst.
    + intros O HO. destruct (IH O HO) as (gr & Hsince & Hpar).
      exists gr. split; [|assumption].
      apply attached_since_logs; [assumption|].
      auto using only_logs_app.
    + destruct (attached_fields gr o g) as (_ & _ & _ & Hh').
      intros O HO. rewrite Hh' in HO. injection HO as <-.
      exists gr. split; [now apply attached_since_grab|].
      rewrite attached_mesh. reflexivity.
    + destruct (detached_fields o g) as (_ & _ & _ & Hh').
      intros O HO. congruence.
Qed.

(** In a steady run, the held object hangs on the current right grip. *)
Lemma held_object_on_right_grip b g tr :
  program_reachable_steady Number_toString b g tr ->
  forall O, rightGrabbedObject g = Some O ->
    exists gr, gripOf (rightController g) = Some gr /\
               parent (scene g O) = Some gr.
Proof.
  induction 1 as [sc | g tr sc Hreach _ | b g tr src _ IH Hkeep
                 | b g tr l r _ IH _ Hr | g tr l Hreach _
                 | b g tr isect la ra Hreach IH].
  - discriminate.
  - apply steady_is_reachable in Hreach.
    destruct (proj1 (program_reachable_sound _ _ _ _ Hreach)) as [Hun _ _].
    destruct (Hun eq_refl) as [_ Hidle]. cbn. rewrite Hidle. discriminate.
  - intros O HO. unfold onControllerAdded in *.
    destruct (endsWith (uniqueId src) "left") eqn:He;
      unfold final in *; cbn in HO |- *.
    + exact (IH O HO).
    + destruct (IH O HO) as (gr & Hgr & Hpar).
      destruct Hkeep as [Hleft|Hsame]; [rewrite HO; eauto|discriminate|].
      exists gr. split; [congruence|assumption].
  - intros O HO. cbn in HO |- *. destruct (IH O HO) as (gr & Hgr & Hpar).
    exists gr. split; [|assumption].
    rewrite (refreshed_gripOf _ _ Hr). exact Hgr.
  - apply steady_is_reachable in Hreach.
    destruct (proj1 (program_reachable_sound _ _ _ _ Hreach)) as [Hun _ _].
    destruct (Hun eq_refl) as [_ Hidle].
    destruct (onFinish_any l g) as (g' & evs & Hrun & _ & _ & Hh & _).
    rewrite Hrun. unfold final; cbn [fst snd]. rewrite Hh, Hidle. discriminate.
  - destruct (update_outcome Number_toString isect la ra g)
      as (c & evs & l1 & l2 & Hout & _).
    remember (final (update Number_toString isect la ra g)) as g' eqn:Hg'.
    clear Hg'.
    inversion Hout as [c0 lg Hlg | rc gr o lg Hidle Hrc Hgr Hfind Hlg
                      | o lg Hholding Hlg]; subst.
    + exact IH.
    + destruct (attached_fields gr o g) as (_ & Hr' & _ & Hh').
      intros O HO. rewrite Hh' in HO. injection HO as <-.
      exists gr. rewrite Hr', Hrc, attached_mesh. cbn. auto.
    + destruct (detached_fields o g) as (_ & _ & _ & Hh').
      intros O HO. congruence.
Qed.

End HoldingHand.

Lemma demo_run_replaced_reachable :
  program_reachable DemoRun.render true DemoRun.replaced DemoRun.replacedTrace.
Proof. apply prog_added, demo_run_grabbed_reachable. Defined.

Lemma demo_run_grabbed_steady :
  program_reachable_steady DemoRun.render true DemoRun.grabbed DemoRun.grabbedTrace.
Proof.
  apply steady_update, steady_added; [apply steady_finish, steady_new|].
  intros [o Ho]. vm_compute in Ho. discriminate.
Defined.

Example demo_run_replaced_state :
  rightGrabbedObject DemoRun.replaced = Some 2 /\
  parent (scene DemoRun.replaced 2) = Some 100 /\
  gripOf (rightController DemoRun.replaced) = Some 200.
Proof. repeat split; reflexivity. Qed.

(** C4, as stated, fails: when a second right input source is added while
    the barrel is held, the barrel stays parented to the grip that grabbed it
    (node 100) and the right controller's grip is another node (200). *)
Lemma C4_replaced_right_source_leaves_old_grip : ~ held_object_follows_the_hand.
Proof.
  intros H.
  destruct (H nat DemoRun.render true DemoRun.replaced DemoRun.replacedTrace 2
              demo_run_replaced_reachable eq_refl) as (_ & gr & Hgr & Hpar).
  vm_compute in Hgr, Hpar. congruence.
Qed.

(** C4, amended: in every state of every run of the program in which the
    right hand holds an object [O], [O] is a registered mesh whose impostor
    is asleep and whose parent is the grip node it was attached to by its
    grab (no call on a scene node was made since); a release edge returns
    [O] to the world root with its impostor awake. A frame that takes the
    hand from idle to holding [O] leaves [O] on the grip of the right
    controller, and [O] stays on the grip of the right controller in every
    run in which no input source with another grip takes the right slot
    during a hold. *)
Theorem C4_held_object_suspended_and_on_its_grip :
  forall (number : Type) (Number_toString : number -> string) b g tr,
    program_reachable Number_toString b g tr ->
    (forall O,
        rightGrabbedObject g = Some O ->
        In O (grabbableObjects g) /\
        (exists i, physicsImpostor (scene g O) = Some i /\ sleeping i = true) /\
        (exists gr, attached_since O gr tr /\ parent (scene g O) = Some gr) /\
        (forall (intersectsMesh : NodeId -> NodeId -> bool) c,
            changes_pressed (changes c) = true -> pressed c = false ->
            let r := onRightSqueeze intersectsMesh (Some c) g in
            completion r = Normal tt /\
            rightGrabbedObject (final r) = None /\
            parent (scene (final r) O) = None /\
            exists i, physicsImpostor (scene (final r) O) = Some i /\
                      sleeping i = false)) /\
    (forall (intersectsMesh : NodeId -> NodeId -> bool) leftAxes rightAxes O,
        rightGrabbedObject g = None ->
        let g' := final (update Number_toString intersectsMesh leftAxes rightAxes g) in
        rightGrabbedObject g' = Some O ->
        exists gr, gripOf (rightController g') = Some gr /\
                   parent (scene g' O) = Some gr) /\
    (program_reachable_steady Number_toString b g tr ->
     forall O,
       rightGrabbedObject g = Some O ->
       exists gr, gripOf (rightController g) = Some gr /\
                  parent (scene g O) = Some gr).
Proof.
  intros number ts b g tr Hreach. split; [|split].
  - intros O Hheld.
    destruct (proj1 (program_reachable_sound ts b g tr Hreach)) as [_ _ Hsound].
    destruct (Hsound O Hheld) as (Hin & _ & (i & Hi & Hs)).
    split; [assumption|]. split; [eauto|].
    split; [exact (held_object_attached_since ts b g tr Hreach O Hheld)|].
    intros isect c Hch Hpr. cbn zeta.
    rewrite (onRightSqueeze_release_holding isect c g O) by assumption.
    unfold completion, final, events; cbn [fst snd].
    split; [reflexivity|]. split; [apply detached_fields|].
    rewrite detached_mesh. cbn [parent physicsImpostor].
    split; [reflexivity|].
    exists (wakeUp i). rewrite Hi. split; reflexivity.
  - intros isect la ra O Hidle. cbn zeta.
    destruct (update_outcome ts isect la ra g) as (c & evs & l1 & l2 & Hout & _).
    remember (final (update ts isect la ra g)) as g' eqn:Hg'. clear Hg'.
    inversion Hout as [c0 lg Hlg | rc gr o lg _ Hrc Hgr Hfind Hlg
                      | o lg Hholding Hlg]; subst.
    + congruence.
    + destruct (attached_fields gr o g) as (_ & Hr' & _ & Hh').
      intros HO. rewrite Hh' in HO. injection HO as <-.
      exists gr. rewrite Hr', Hrc, attached_mesh. cbn. auto.
    + congruence.
  - intros Hsteady O Hheld.
    exact (held_object_on_right_grip ts b g tr Hsteady O Hheld).
Qed.

Lemma C4_witness :
  (In 2 (grabbableObjects DemoRun.replaced) /\
   (exists i, physicsImpostor (scene DemoRun.replaced 2) = Some i /\
              sleeping i = true) /\
   (exists gr, attached_since 2 gr DemoRun.replacedTrace /\
               parent (scene DemoRun.replaced 2) = Some gr) /\
   (forall (intersectsMesh : NodeId -> NodeId -> bool) c,
       changes_pressed (changes c) = true -> pressed c = false ->
       let r := onRightSqueeze intersectsMesh (Some c) DemoRun.replaced in
       completion r = Normal tt /\
       rightGrabbedObject (final r) = None /\
       parent (scene (final r) 2) = None /\
       exists i, physicsImpostor (scene (final r) 2) = Some i /\
                 sleeping i = false)) /\
  (exists gr,
      gripOf (rightController
                (final (update DemoRun.render Demo.touchesBarrel DemoRun.still
                          DemoRun.still DemoRun.added))) = Some gr /\
      parent (scene (final (update DemoRun.render Demo.touchesBarrel DemoRun.still
                              DemoRun.still DemoRun.added)) 2) = Some gr) /\
  (exists gr, gripOf (rightController DemoRun.grabbed) = Some gr /\
              parent (scene DemoRun.grabbed 2) = Some gr).
Proof.
  split; [|split].
  - exact (proj1 (C4_held_object_suspended_and_on_its_grip nat DemoRun.render
             true DemoRun.replaced DemoRun.replacedTrace
             demo_run_replaced_reachable) 2 eq_refl).
  - exact (proj1 (proj2 (C4_held_object_suspended_and_on_its_grip nat
             DemoRun.render true DemoRun.added DemoRun.addedTrace
             demo_run_added_reachable))
             Demo.touchesBarrel DemoRun.still DemoRun.still 2 eq_refl eq_refl).
  - exact (proj2 (proj2 (C4_held_object_suspended_and_on_its_grip nat
             DemoRun.render true DemoRun.grabbed DemoRun.grabbedTrace
             demo_run_grabbed_reachable))
             demo_run_grabbed_steady 2 eq_refl).
Defined.
